(** * The U-Net training script [train.py]: embedding and properties

    The script is glue over a deep-learning framework.  The framework
    (tensors, the network, autograd, Adam, the gradient scaler, the pseudo
    random generator, the two dataset classes) is taken as an interface,
    [Framework]; the script itself (dataset construction with its fallback,
    the degenerate split, the loaders, the epoch and batch loops, the
    end-of-epoch logging, the periodic checkpoint and the interrupt handler
    of [__main__]) is embedded statement by statement in a state-and-exception
    monad over an explicit process state. *)

From Stdlib Require Import ZArith QArith String List Lia.
From stdpp Require Import base tactics option list strings gmap pretty.

Local Open Scope string_scope.
Local Open Scope list_scope.
Local Open Scope Z_scope.

(** ** Python exceptions and results *)

(** The exception classes the script can meet.  A value stands for the class
    an [except] clause matches on. *)
Inductive exn :=
| AssertionError
| RuntimeError
| KeyboardInterrupt
| ZeroDivisionError
| IndexError
| ValueError
| FileNotFoundError
| NameError
| SystemExit (code : Z)
| OtherError (class_name : string).

Global Instance exn_eq_dec : EqDecision exn.
Proof. solve_decision. Defined.

Inductive result (A : Type) :=
| Ok (a : A)
| Raise (e : exn).
Arguments Ok {A} a.
Arguments Raise {A} e.

(** ** Paths (pathlib): a path is its sequence of parts *)

Definition Path := list string.

(** [p / name] *)
Definition path_div (p : Path) (name : string) : Path := (p ++ [name])%list.

(** [str(p)] for a relative path *)
Definition path_str (p : Path) : string :=
  match p with
  | [] => "."
  | _ => String.concat "/" p
  end.

(** Lines 20-27.  [Path] drops the leading [./] and the trailing [/]. *)
Definition dir_img_training : Path :=
  [".."; "dfdc_deepfake_challenge"; "dataset_new_1"; "training"; "crops"].
Definition dir_mask_training : Path :=
  [".."; "dfdc_deepfake_challenge"; "dataset_new_1"; "training"; "masks"].
Definition dir_img_testing : Path :=
  [".."; "dfdc_deepfake_challenge"; "dataset_new_1"; "testing"; "crops"; "crops_testing"].
Definition dir_mask_testing : Path :=
  [".."; "dfdc_deepfake_challenge"; "dataset_new_1"; "testing"; "masks"; "masks_testing"].
Definition dir_checkpoint : Path := ["checkpoints"].

(** The name given to [torch.save] on line 148, for the loop variable
    [epoch]: [str(dir_checkpoint / f'checkpoint_epoch_224x224_{epoch + 1}.pth')]. *)
Definition checkpoint_file (epoch : Z) : string :=
  path_str (path_div dir_checkpoint
              ("checkpoint_epoch_224x224_" +:+ pretty (epoch + 1) +:+ ".pth")).

(** The name given to [torch.save] on line 200. *)
Definition interrupted_file : string := "INTERRUPTED.pth".

(** A [torch.Generator] object is mutable and is passed by reference: the
    process's default generator, or the [i]-th generator the script made. *)
Inductive gen_ref := DefaultGen | GenObj (i : nat).

(** [range(n)] *)
Definition range (n : Z) : list Z := map Z.of_nat (seq 0 (Z.to_nat n)).

(** ** The framework the script runs on *)

Class Framework := {
  (** Python floats *)
  Float : Type;
  float_of_Q : Q -> Float;                 (* a literal, or [float(i)] for an int *)
  float_add : Float -> Float -> Float;
  float_div : Float -> Z -> Float;         (* [x / k] for an int [k <> 0] *)
  (** tensors *)
  Tensor : Type;
  shape : Tensor -> list Z;
  to_float32 : Tensor -> Tensor;           (* [.to(device=device, dtype=torch.float32)] *)
  shape_to_float32 : forall t, shape (to_float32 t) = shape t;
  tensor_item : Tensor -> Float;           (* [.item()] *)
  collate : list (Tensor * Tensor) -> Tensor * Tensor;
  (** the dataset classes of [utils.data_loading]: what the constructor does
      on a directory pair and a scale *)
  CarvanaDataset_init : Path -> Path -> Float -> result (list (Tensor * Tensor));
  BasicDataset_init : Path -> Path -> Float -> result (list (Tensor * Tensor));
  (** [torch.Generator] and [torch.randperm]: [Generator] is the state of a
      generator object, which a draw reads and advances *)
  Generator : Type;
  generator_fresh : Generator;             (* the state of a new [torch.Generator()] *)
  manual_seed : Z -> Generator;            (* the state [manual_seed] sets *)
  randperm : nat -> Generator -> list nat;
  randperm_perm : forall n g, Permutation (randperm n g) (seq 0 n);
  randperm_next : nat -> Generator -> Generator;   (* the state a draw leaves *)
  (** the network, the loss, autograd, Adam and the gradient scaler *)
  Params : Type;                           (* [net.state_dict()] *)
  Grads : Type;
  AdamState : Type;
  Scaler : Type;
  unet_init : Z -> Z -> Params;
  net_forward : bool -> Params -> Tensor -> result Tensor;   (* under [autocast(enabled)] *)
  bce_loss : bool -> Tensor -> Tensor -> result Tensor;      (* [nn.BCELoss()] *)
  backward : Scaler -> Params -> Tensor -> Grads;            (* [scale(loss).backward()] *)
  adam_init : Params -> AdamState;
  scaler_init : bool -> Scaler;
  scaler_step : Scaler -> Float -> Float -> AdamState -> Params -> option Grads ->
                Params * AdamState;        (* [grad_scaler.step(optimizer)] *)
  scaler_update : Scaler -> Scaler;
  cuda_is_available : bool;
}.

Section Script.
Context `{FW : Framework}.

(** ** Data: datasets, subsets, loaders *)

(** A sample, and a collated batch: the dict with keys ['image'] and ['output']. *)
Definition Item : Type := Tensor * Tensor.
Definition image (b : Item) : Tensor := fst b.
Definition output (b : Item) : Tensor := snd b.

Definition Dataset : Type := list Item.

Record Subset := { sub_dataset : Dataset; sub_indices : list nat }.

Definition subset_items (s : Subset) : list Item :=
  omap (fun i => sub_dataset s !! i) (sub_indices s).

(** [indices[offset - length : offset]] for the running offsets *)
Fixpoint slices (indices : list nat) (lengths : list nat) : list (list nat) :=
  match lengths with
  | [] => []
  | n :: rest => take n indices :: slices (drop n indices) rest
  end.

(** [torch.utils.data.random_split(dataset, lengths, generator)] for integer
    lengths, as a function of the state [g] the generator is in when the
    permutation is drawn: the lengths must sum to the dataset's length; the
    subsets are consecutive slices of one random permutation of all indices.
    (Releases
    that also read lengths summing to 1 as fractions turn [[1, 0]] and
    [[0, 1]] on a one-element dataset into these same lengths.) *)
Definition random_split (dataset : Dataset) (lengths : list nat) (g : Generator)
  : result (list Subset) :=
  if decide (sum_list lengths = length dataset) then
    let indices := randperm (sum_list lengths) g in
    Ok (map (fun ix => {| sub_dataset := dataset; sub_indices := ix |})
            (slices indices lengths))
  else Raise ValueError.

Record DataLoader := {
  dl_subset : Subset;
  dl_batch_size : Z;
  dl_drop_last : bool
}.

(** [DataLoader(subset, shuffle=False, drop_last=.., batch_size=..)]: the
    batch sampler refuses a batch size that is not positive. *)
Definition new_DataLoader (subset : Subset) (batch_size : Z) (drop_last : bool)
  : result DataLoader :=
  if decide (batch_size <= 0) then Raise ValueError
  else Ok {| dl_subset := subset; dl_batch_size := batch_size; dl_drop_last := drop_last |}.

(** Consecutive groups of [n] elements; a short last group is kept unless
    [drop_last].  [fuel] bounds the number of groups; the length of the list
    is enough, since [n] is positive. *)
Fixpoint chunks {A} (fuel : nat) (n : nat) (drop_last : bool) (l : list A) : list (list A) :=
  match fuel with
  | O => []
  | S fuel' =>
      match l with
      | [] => []
      | _ =>
          if decide (length l < n)%nat
          then (if drop_last then [] else [l])
          else take n l :: chunks fuel' n drop_last (drop n l)
      end
  end.

(** What iterating the loader yields, in order (no shuffling). *)
Definition batches (dl : DataLoader) : list Item :=
  let items := subset_items (dl_subset dl) in
  map collate (chunks (length items) (Z.to_nat (dl_batch_size dl)) (dl_drop_last dl) items).

(** [t.shape[i]] *)
Definition shape_at (t : Tensor) (i : nat) : result Z :=
  match shape t !! i with
  | Some d => Ok d
  | None => Raise IndexError
  end.

(** ** The network object, the optimizer, arguments *)

Record Net := { n_channels : Z; n_classes : Z }.

Record Optimizer := { lr : Float; weight_decay : Float; adam : AdamState }.

(** [ReduceLROnPlateau(optimizer, 'max', patience=2)] *)
Record Scheduler := { sched_mode : string; sched_patience : Z }.

(** The keyword arguments of [train_net]. *)
Record TrainArgs := {
  epochs : Z;
  batch_size : Z;
  learning_rate : Float;
  val_percent : Float;
  save_checkpoint : bool;
  img_scale : Float;
  amp : bool
}.

(** ** Observable events and the process state *)

Inductive dataset_class := Carvana | Basic.

Inductive log_message :=
| MsgUsingDevice (cuda : bool)
| MsgNetwork (channels classes : Z)
| MsgModelLoaded (file : string)
| MsgStartingTraining (a : TrainArgs) (n_train n_val : nat)
| MsgCheckpointSaved (n : Z)
| MsgSavedInterrupt.

Inductive event :=
| EvDataset (c : dataset_class) (dir_img dir_mask : Path)
| EvWandbInit
| EvWandbConfig (a : TrainArgs)
| EvLogging (m : log_message)
| EvPbarOpen (total : nat) (epoch_no : Z)
| EvForward (images : Tensor)
| EvPbarUpdate (n : Z)
| EvWandbLog (train_loss : Float) (step : Z) (epoch : Z)
| EvPbarPostfix (loss : Float)
| EvMkdir (dir : string)
| EvSave (file : string) (p : Params).

Record state := {
  net_params : Params;                 (* the network's parameters *)
  net_grad : option Grads;             (* their [.grad] *)
  net_training : bool;                 (* [net.train()] *)
  optimizer : option Optimizer;
  scheduler : option Scheduler;
  grad_scaler : option Scaler;
  files : gmap string Params;          (* the [.pth] files written by [torch.save] *)
  dirs : gset string;                  (* the directories that exist *)
  trace : list event;                  (* calls made so far, oldest first *)
  sigint : option nat;                 (* a pending interrupt: statements left before it *)
  rng_default : Generator;             (* [torch.default_generator] *)
  rng_objects : list Generator         (* the generator objects constructed so far *)
}.

Definition set_net_params (p : Params) (s : state) : state :=
  {| net_params := p; net_grad := net_grad s; net_training := net_training s;
     optimizer := optimizer s; scheduler := scheduler s; grad_scaler := grad_scaler s;
     files := files s; dirs := dirs s; trace := trace s; sigint := sigint s;
     rng_default := rng_default s; rng_objects := rng_objects s |}.
Definition set_net_grad (g : option Grads) (s : state) : state :=
  {| net_params := net_params s; net_grad := g; net_training := net_training s;
     optimizer := optimizer s; scheduler := scheduler s; grad_scaler := grad_scaler s;
     files := files s; dirs := dirs s; trace := trace s; sigint := sigint s;
     rng_default := rng_default s; rng_objects := rng_objects s |}.
Definition set_net_training (b : bool) (s : state) : state :=
  {| net_params := net_params s; net_grad := net_grad s; net_training := b;
     optimizer := optimizer s; scheduler := scheduler s; grad_scaler := grad_scaler s;
     files := files s; dirs := dirs s; trace := trace s; sigint := sigint s;
     rng_default := rng_default s; rng_objects := rng_objects s |}.
Definition set_optimizer (o : option Optimizer) (s : state) : state :=
  {| net_params := net_params s; net_grad := net_grad s; net_training := net_training s;
     optimizer := o; scheduler := scheduler s; grad_scaler := grad_scaler s;
     files := files s; dirs := dirs s; trace := trace s; sigint := sigint s;
     rng_default := rng_default s; rng_objects := rng_objects s |}.
Definition set_scheduler (o : option Scheduler) (s : state) : state :=
  {| net_params := net_params s; net_grad := net_grad s; net_training := net_training s;
     optimizer := optimizer s; scheduler := o; grad_scaler := grad_scaler s;
     files := files s; dirs := dirs s; trace := trace s; sigint := sigint s;
     rng_default := rng_default s; rng_objects := rng_objects s |}.
Definition set_grad_scaler (o : option Scaler) (s : state) : state :=
  {| net_params := net_params s; net_grad := net_grad s; net_training := net_training s;
     optimizer := optimizer s; scheduler := scheduler s; grad_scaler := o;
     files := files s; dirs := dirs s; trace := trace s; sigint := sigint s;
     rng_default := rng_default s; rng_objects := rng_objects s |}.
Definition set_files (f : gmap string Params) (s : state) : state :=
  {| net_params := net_params s; net_grad := net_grad s; net_training := net_training s;
     optimizer := optimizer s; scheduler := scheduler s; grad_scaler := grad_scaler s;
     files := f; dirs := dirs s; trace := trace s; sigint := sigint s;
     rng_default := rng_default s; rng_objects := rng_objects s |}.
Definition set_dirs (d : gset string) (s : state) : state :=
  {| net_params := net_params s; net_grad := net_grad s; net_training := net_training s;
     optimizer := optimizer s; scheduler := scheduler s; grad_scaler := grad_scaler s;
     files := files s; dirs := d; trace := trace s; sigint := sigint s;
     rng_default := rng_default s; rng_objects := rng_objects s |}.
Definition set_trace (t : list event) (s : state) : state :=
  {| net_params := net_params s; net_grad := net_grad s; net_training := net_training s;
     optimizer := optimizer s; scheduler := scheduler s; grad_scaler := grad_scaler s;
     files := files s; dirs := dirs s; trace := t; sigint := sigint s;
     rng_default := rng_default s; rng_objects := rng_objects s |}.
Definition set_sigint (k : option nat) (s : state) : state :=
  {| net_params := net_params s; net_grad := net_grad s; net_training := net_training s;
     optimizer := optimizer s; scheduler := scheduler s; grad_scaler := grad_scaler s;
     files := files s; dirs := dirs s; trace := trace s; sigint := k;
     rng_default := rng_default s; rng_objects := rng_objects s |}.

(** The state of the generator [g] refers to, and its assignment; a new
    generator object. *)
Definition gen_state (g : gen_ref) (s : state) : option Generator :=
  match g with
  | DefaultGen => Some (rng_default s)
  | GenObj i => rng_objects s !! i
  end.
Definition set_gen_state (g : gen_ref) (v : Generator) (s : state) : state :=
  {| net_params := net_params s; net_grad := net_grad s; net_training := net_training s;
     optimizer := optimizer s; scheduler := scheduler s; grad_scaler := grad_scaler s;
     files := files s; dirs := dirs s; trace := trace s; sigint := sigint s;
     rng_default := match g with DefaultGen => v | GenObj _ => rng_default s end;
     rng_objects := match g with
                    | DefaultGen => rng_objects s
                    | GenObj i => <[i := v]> (rng_objects s)
                    end |}.
Definition add_generator (v : Generator) (s : state) : state :=
  {| net_params := net_params s; net_grad := net_grad s; net_training := net_training s;
     optimizer := optimizer s; scheduler := scheduler s; grad_scaler := grad_scaler s;
     files := files s; dirs := dirs s; trace := trace s; sigint := sigint s;
     rng_default := rng_default s; rng_objects := (rng_objects s ++ [v])%list |}.

(** ** The monad: state and exceptions *)

Definition M (A : Type) : Type := state -> result A * state.

Global Instance M_ret : MRet M := fun A a s => (Ok a, s).
Global Instance M_bind : MBind M := fun A B f m s =>
  match m s with
  | (Ok a, s') => f a s'
  | (Raise e, s') => (Raise e, s')
  end.

Definition raise {A} (e : exn) : M A := fun s => (Raise e, s).
Definition lift {A} (r : result A) : M A := fun s => (r, s).
Definition emit (e : event) : M unit := fun s => (Ok tt, set_trace (trace s ++ [e])%list s).
Definition update (f : state -> state) : M unit := fun s => (Ok tt, f s).
Definition gets {A} (f : state -> A) : M A := fun s => (Ok (f s), s).

(** The interrupt: it is delivered between two statements.  [sigint s = Some k]
    says that [k] more statements start before the signal arrives; once
    delivered, nothing is pending. *)
Definition tick : M unit := fun s =>
  match sigint s with
  | None => (Ok tt, s)
  | Some (S k) => (Ok tt, set_sigint (Some k) s)
  | Some O => (Raise KeyboardInterrupt, set_sigint None s)
  end.

(** One statement of the script. *)
Definition stmt {A} (m : M A) : M A := tick;; m.

(** [try: body  except <classes>: handler]: [handler e] is [None] for the
    exceptions the clause does not match. *)
Definition try_except {A} (body : M A) (handler : exn -> option (M A)) : M A := fun s =>
  match body s with
  | (Ok a, s') => (Ok a, s')
  | (Raise e, s') =>
      match handler e with
      | Some h => h s'
      | None => (Raise e, s')
      end
  end.

(** [for x in l: acc = body x acc] *)
Fixpoint for_each {A B} (l : list A) (body : A -> B -> M B) (acc : B) : M B :=
  match l with
  | [] => mret acc
  | x :: l' => acc' ← body x acc; for_each l' body acc'
  end.

(** Reading a local variable that holds an object created earlier in the
    function; before its assignment Python raises [UnboundLocalError], a
    [NameError]. *)
Definition the {A} (f : state -> option A) : M A := fun s =>
  match f s with
  | Some a => (Ok a, s)
  | None => (Raise NameError, s)
  end.

(** [x / k] and [a // b] *)
Definition py_truediv (x : Float) (k : Z) : M Float :=
  if decide (k = 0) then raise ZeroDivisionError else mret (float_div x k).
Definition py_floordiv (a b : Z) : M Z :=
  if decide (b = 0) then raise ZeroDivisionError else mret (a / b).

(** [a, b = l] *)
Definition unpack2 {A} (l : list A) : M (A * A) :=
  match l with
  | [a; b] => mret (a, b)
  | _ => raise ValueError
  end.

(** [torch.save(net.state_dict(), file)] *)
Definition torch_save (file : string) : M unit :=
  p ← gets net_params;
  emit (EvSave file p);;
  update (fun s => set_files (<[file := p]> (files s)) s).

(** [Path(dir).mkdir(parents=True, exist_ok=True)] *)
Definition mkdir (dir : Path) : M unit :=
  emit (EvMkdir (path_str dir));;
  update (fun s => set_dirs ({[ path_str dir ]} ∪ dirs s) s).

(** [torch.Generator()]: a new generator object. *)
Definition new_Generator : M gen_ref :=
  objs ← gets rng_objects;
  update (add_generator generator_fresh);;
  mret (GenObj (length objs)).

(** [g.manual_seed(seed)]: sets the state of [g] and returns [g]. *)
Definition generator_manual_seed (g : gen_ref) (seed : Z) : M gen_ref :=
  the (gen_state g);;
  update (set_gen_state g (manual_seed seed));;
  mret g.

(** [random_split(dataset, lengths, generator=g)]: the lengths are checked,
    then the permutation is drawn from [g], whose state advances. *)
Definition random_split_on (dataset : Dataset) (lengths : list nat) (g : gen_ref)
  : M (list Subset) :=
  gs ← the (gen_state g);
  subsets ← lift (random_split dataset lengths gs);
  update (set_gen_state g (randperm_next (sum_list lengths) gs));;
  mret subsets.

(** ** [train_net] *)

(** A call of one of the two dataset constructors. *)
Definition dataset_init (c : dataset_class) (dir_img dir_mask : Path) (scale : Float)
  : M Dataset :=
  emit (EvDataset c dir_img dir_mask);;
  lift (match c with
        | Carvana => CarvanaDataset_init dir_img dir_mask scale
        | Basic => BasicDataset_init dir_img dir_mask scale
        end).

(** [except (AssertionError, RuntimeError):] *)
Definition except_structural {A} (handler : M A) (e : exn) : option (M A) :=
  match e with
  | AssertionError | RuntimeError => Some handler
  | _ => None
  end.

(** Lines 41-44 and 46-49: the same [try] block, once per directory pair. *)
Definition make_dataset (dir_img dir_mask : Path) (scale : Float) : M Dataset :=
  try_except
    (stmt (dataset_init Carvana dir_img dir_mask scale))
    (except_structural (stmt (dataset_init Basic dir_img dir_mask scale))).

(** Line 111, [grad_scaler.step(optimizer)]: Adam reads the learning rate
    and the weight decay of its parameter group and updates the parameters
    and its moment estimates. *)
Definition grad_scaler_step : M unit := fun s =>
  match grad_scaler s, optimizer s with
  | Some sc, Some o =>
      let '(p', ad') := scaler_step sc (lr o) (weight_decay o) (adam o)
                                    (net_params s) (net_grad s) in
      (Ok tt, set_optimizer (Some {| lr := lr o; weight_decay := weight_decay o;
                                     adam := ad' |})
                (set_net_params p' s))
  | _, _ => (Raise NameError, s)
  end.

(** Lines 93-112: one batch up to the optimizer step; the result is [loss]. *)
Definition forward_backward (net : Net) (a : TrainArgs) (batch : Item) : M Tensor :=
  images ← stmt (mret (image batch));
  true_out ← stmt (mret (output batch));
  stmt (c ← lift (shape_at images 1);
        if decide (c = n_channels net) then mret tt else raise AssertionError);;
  images ← stmt (mret (to_float32 images));
  true_out ← stmt (mret (to_float32 true_out));
  pred ← stmt (emit (EvForward images);;
               p ← gets net_params;
               lift (net_forward (amp a) p images));
  loss ← stmt (lift (bce_loss (amp a) pred true_out));
  stmt (update (set_net_grad None));;
  stmt (sc ← the grad_scaler;
        p ← gets net_params;
        update (set_net_grad (Some (backward sc p loss))));;
  stmt grad_scaler_step;;
  stmt (sc ← the grad_scaler;
        update (set_grad_scaler (Some (scaler_update sc))));;
  mret loss.

(** Lines 113-115. *)
Definition account (batch : Item) (loss : Tensor) (epoch_loss : Float) : M Float :=
  epoch_loss ← stmt (mret (float_add epoch_loss (tensor_item loss)));
  stmt (n ← lift (shape_at (to_float32 (image batch)) 0);
        emit (EvPbarUpdate n));;
  mret epoch_loss.

(** Lines 93-115: the body of [for batch in train_loader]. *)
Definition batch_step (net : Net) (a : TrainArgs) (batch : Item) (epoch_loss : Float)
  : M Float :=
  loss ← forward_backward net a batch;
  account batch loss epoch_loss.

(** Lines 92-115. *)
Definition train_batches (net : Net) (a : TrainArgs) (bs : list Item) (epoch_loss : Float)
  : M Float :=
  for_each bs (batch_step net a) epoch_loss.

(** Lines 117-123. *)
Definition log_epoch (a : TrainArgs) (n_train : nat) (epoch : Z) (epoch_loss : Float)
    (global_step : Z) : M Z :=
  global_step ← stmt (mret (global_step + 1));
  stmt (k ← py_floordiv (Z.of_nat n_train) (batch_size a);
        v ← py_truediv epoch_loss k;
        emit (EvWandbLog v global_step epoch));;
  stmt (k ← py_floordiv (Z.of_nat n_train) (batch_size a);
        v ← py_truediv epoch_loss k;
        emit (EvPbarPostfix v));;
  mret global_step.

(** Lines 146-149. *)
Definition checkpoint (epoch : Z) : M unit :=
  b ← stmt (mret (bool_decide (epoch `mod` 2 = 0)));
  if b : bool then
    stmt (mkdir dir_checkpoint);;
    stmt (torch_save (checkpoint_file epoch));;
    stmt (emit (EvLogging (MsgCheckpointSaved (epoch + 1))))
  else mret tt.

(** Lines 89-149: the body of [for epoch in range(epochs)]; the loop carries
    [global_step]. *)
Definition run_epoch (net : Net) (a : TrainArgs) (n_train : nat) (train_loader : DataLoader)
    (epoch : Z) (global_step : Z) : M Z :=
  stmt (update (set_net_training true));;
  epoch_loss ← stmt (mret (float_of_Q 0));
  stmt (emit (EvPbarOpen n_train (epoch + 1)));;
  epoch_loss ← train_batches net a (batches train_loader) epoch_loss;
  global_step ← log_epoch a n_train epoch epoch_loss global_step;
  checkpoint epoch;;
  mret global_step.

(** Lines 81-85: optimizer, scheduler, gradient scaler, loss, step counter.
    The learning rate is taken to be one [optim.Adam] accepts; its refusal
    of a negative one is not modelled. *)
Definition setup_optimizer (a : TrainArgs) : M Z :=
  stmt (p ← gets net_params;
        update (set_optimizer (Some {| lr := learning_rate a;
                                       weight_decay := float_of_Q (1 # 100000000);
                                       adam := adam_init p |})));;
  stmt (update (set_scheduler (Some {| sched_mode := "max"; sched_patience := 2 |})));;
  stmt (update (set_grad_scaler (Some (scaler_init (amp a)))));;
  stmt (mret tt);;                                  (* 84: criterion = nn.BCELoss() *)
  stmt (mret 0).                                    (* 85: global_step = 0 *)

(** Lines 52-60: sizes, the two splits, the two loaders. *)
Definition make_loaders (a : TrainArgs) (dataset_training dataset_testing : Dataset)
  : M (nat * nat * DataLoader * DataLoader) :=
  n_val ← stmt (mret (length dataset_testing));
  n_train ← stmt (mret (length dataset_training));
  '(train_set, _) ← stmt (g ← new_Generator;
                          g ← generator_manual_seed g 0;
                          l ← random_split_on dataset_training [n_train; 0%nat] g;
                          unpack2 l);
  '(_, val_set) ← stmt (g ← new_Generator;
                        g ← generator_manual_seed g 0;
                        l ← random_split_on dataset_testing [0%nat; n_val] g;
                        unpack2 l);
  stmt (mret tt);;                                  (* 58: loader_args *)
  train_loader ← stmt (lift (new_DataLoader train_set (batch_size a) false));
  val_loader ← stmt (lift (new_DataLoader val_set (batch_size a) true));
  mret (n_train, n_val, train_loader, val_loader).

(** Lines 52-149: [train_net] once both datasets exist. *)
Definition training (net : Net) (a : TrainArgs) (dataset_training dataset_testing : Dataset)
  : M unit :=
  '(n_train, n_val, train_loader, val_loader) ← make_loaders a dataset_training dataset_testing;
  stmt (emit EvWandbInit);;
  stmt (emit (EvWandbConfig a));;
  stmt (emit (EvLogging (MsgStartingTraining a n_train n_val)));;
  global_step ← setup_optimizer a;
  for_each (range (epochs a)) (run_epoch net a n_train train_loader) global_step;;
  mret tt.

Definition train_net (net : Net) (a : TrainArgs) : M unit :=
  dataset_training ← make_dataset dir_img_training dir_mask_training (img_scale a);
  dataset_testing ← make_dataset dir_img_testing dir_mask_testing (img_scale a);
  training net a dataset_training dataset_testing.

(** ** [__main__] *)

(** The parsed command line. *)
Record Args := {
  args_epochs : Z;
  args_batch_size : Z;
  args_lr : Float;
  args_load : option string;   (* [None] for the default [False] *)
  args_scale : Float;
  args_val : Float;
  args_amp : bool
}.

(** The keyword arguments of the call on lines 191-198; [save_checkpoint]
    keeps its default. *)
Definition train_args (args : Args) : TrainArgs :=
  {| epochs := args_epochs args;
     batch_size := args_batch_size args;
     learning_rate := args_lr args;
     val_percent := float_div (args_val args) 100;
     save_checkpoint := true;
     img_scale := args_scale args;
     amp := args_amp args |}.

Definition unet : Net := {| n_channels := 3; n_classes := 2 |}.

(** Lines 200-202. *)
Definition interrupt_handler : M unit :=
  stmt (torch_save interrupted_file);;
  stmt (emit (EvLogging MsgSavedInterrupt));;
  stmt (raise (SystemExit 0)).

(** [except KeyboardInterrupt:] *)
Definition except_interrupt (e : exn) : option (M unit) :=
  match e with
  | KeyboardInterrupt => Some interrupt_handler
  | _ => None
  end.

(** Lines 190-202. *)
Definition guarded_train (net : Net) (a : TrainArgs) : M unit :=
  try_except (stmt (train_net net a)) except_interrupt.

(** Lines 185-187: [if args.load:]; the empty string is false. *)
Definition load_weights (args : Args) : M unit :=
  match args_load args with
  | Some file =>
      if decide (file = "") then mret tt
      else
        stmt (fs ← gets files;
              match fs !! file with
              | Some p => update (set_net_params p)
              | None => raise FileNotFoundError
              end);;
        stmt (emit (EvLogging (MsgModelLoaded file)))
  | None => mret tt
  end.

(** Lines 170-202, after [get_args]. *)
Definition main (args : Args) : M unit :=
  stmt (mret tt);;                                                     (* 172: basicConfig *)
  stmt (mret tt);;                                                     (* 173: device *)
  stmt (emit (EvLogging (MsgUsingDevice cuda_is_available)));;         (* 174 *)
  stmt (update (set_net_params (unet_init 3 2)));;                     (* 179: net = UNet(..) *)
  stmt (emit (EvLogging (MsgNetwork (n_channels unet) (n_classes unet))));;  (* 181 *)
  stmt (mret tt);;                                                     (* 185: the test *)
  load_weights args;;                                                  (* 186-187 *)
  stmt (mret tt);;                                                     (* 189: net.to(device) *)
  guarded_train unet (train_args args).                                (* 190-202 *)

(** How the interpreter leaves: the end of the script, [sys.exit], or an
    exception nobody caught. *)
Inductive outcome :=
| Completed
| Exited (code : Z)
| Uncaught (e : exn).

Definition run_process (m : M unit) (s : state) : outcome * state :=
  match m s with
  | (Ok _, s') => (Completed, s')
  | (Raise (SystemExit c), s') => (Exited c, s')
  | (Raise e, s') => (Uncaught e, s')
  end.

(** The exit status; an uncaught exception gives the interpreter's own
    failure status, which the script does not choose. *)
Definition exit_code (o : outcome) : option Z :=
  match o with
  | Completed => Some 0
  | Exited c => Some c
  | Uncaught _ => None
  end.

End Script.

(** ** Vocabulary of the properties *)

Section Vocabulary.
Context `{FW : Framework}.

(** Whatever its result, [m] takes a state to one related to it by [R]. *)
Definition preserves {A} (R : state -> state -> Prop) (m : M A) : Prop :=
  forall s, R s (m s).2.

(** The relations of interest are preorders that do not look at the pending
    interrupt. *)
Class Frame (R : state -> state -> Prop) := {
  frame_preorder :: PreOrder R;
  frame_sigint : forall k s, R s (set_sigint k s)
}.

(** The trace has grown, by events that satisfy [P]. *)
Definition extends (P : event -> Prop) (s s' : state) : Prop :=
  exists d, trace s' = (trace s ++ d)%list /\ Forall P d.

(** The files and the directories are the same. *)
Definition same_fs (s s' : state) : Prop :=
  files s' = files s /\ dirs s' = dirs s.

(** A property of the state is kept. *)
Definition keeps (I : state -> Prop) (s s' : state) : Prop := I s -> I s'.

(** The optimizer, if it exists, has learning rate [v]. *)
Definition lr_is (v : Float) (s : state) : Prop :=
  forall o, optimizer s = Some o -> lr o = v.

(** Calls of a dataset constructor. *)
Definition is_dataset_event (e : event) : Prop :=
  match e with
  | EvDataset _ _ _ => True
  | _ => False
  end.

(** The state with the events [d] added to its trace. *)
Definition add_events (d : list event) (s : state) : state :=
  set_trace (trace s ++ d)%list s.

(** The loaders [train_net] builds from its two datasets. *)
Definition loaders_of (a : TrainArgs) (d1 d2 : Dataset) : nat * nat * DataLoader * DataLoader :=
  (length d1, length d2,
   {| dl_subset := {| sub_dataset := d1; sub_indices := randperm (length d1) (manual_seed 0) |};
      dl_batch_size := batch_size a; dl_drop_last := false |},
   {| dl_subset := {| sub_dataset := d2; sub_indices := randperm (length d2) (manual_seed 0) |};
      dl_batch_size := batch_size a; dl_drop_last := true |}).

(** The state once both splits are made: each split constructed a generator,
    seeded it with 0 and drew one permutation from it. *)
Definition after_splits (d1 d2 : Dataset) (s : state) : state :=
  add_generator (randperm_next (length d2) (manual_seed 0))
    (add_generator (randperm_next (length d1) (manual_seed 0)) s).

(** File operations: making a directory, saving a file. *)
Definition is_fs_event (e : event) : bool :=
  match e with
  | EvMkdir _ | EvSave _ _ => true
  | _ => false
  end.

(** The parameters saved under [file], in order. *)
Definition saves_to (file : string) (d : list event) : list Params :=
  flat_map (fun e => match e with
                     | EvSave f p => if decide (f = file) then [p] else []
                     | _ => []
                     end) d.

(** What is stored under the interrupt file's name is the same. *)
Definition same_interrupted (s s' : state) : Prop :=
  files s' !! interrupted_file = files s !! interrupted_file.

(** The losses of the batches of one pass over [bs], started in state [s]
    and ended in state [s']: each is [loss.item()] for the [loss] that lines
    93-112 computed on that batch, in the state left by the batch before. *)
Inductive loss_seq (net : Net) (a : TrainArgs) :
  list Item -> state -> list Float -> state -> Prop :=
| loss_seq_nil s : loss_seq net a [] s [] s
| loss_seq_cons b bs s loss s1 acc acc1 s2 ls s3 :
    forward_backward net a b s = (Ok loss, s1) ->
    account b loss acc s1 = (Ok acc1, s2) ->
    loss_seq net a bs s2 ls s3 ->
    loss_seq net a (b :: bs) s (tensor_item loss :: ls) s3.

(** The entries sent to the tracker: loss, step, epoch. *)
Definition wandb_logs (d : list event) : list (Float * Z * Z) :=
  flat_map (fun e => match e with
                     | EvWandbLog v step epoch => [(v, step, epoch)]
                     | _ => []
                     end) d.

(** Entries sent to the tracker. *)
Definition is_wandb_log (e : event) : Prop :=
  match e with
  | EvWandbLog _ _ _ => True
  | _ => False
  end.

(** A forward pass, if the event is one, is on images with the network's
    number of channels. *)
Definition forward_ok (net : Net) (e : event) : Prop :=
  match e with
  | EvForward t => shape t !! 1%nat = Some (n_channels net)
  | _ => True
  end.

(** The optimizer exists with learning rate [v], and the scheduler exists as
    it was constructed. *)
Definition optimizer_ready (v : Float) (s : state) : Prop :=
  (exists o, optimizer s = Some o /\ lr o = v) /\
  scheduler s = Some {| sched_mode := "max"; sched_patience := 2 |}.

(** A batch on which the step goes through: the images have the network's
    channel count, and the forward pass and the loss raise nothing. *)
Definition batch_ok (net : Net) (a : TrainArgs) (b : Item) : Prop :=
  shape (image b) !! 1%nat = Some (n_channels net) /\
  forall p, exists pred loss,
    net_forward (amp a) p (to_float32 (image b)) = Ok pred /\
    bce_loss (amp a) pred (to_float32 (output b)) = Ok loss.

(** No interrupt is pending, and the optimizer and the scaler exist. *)
Definition running (s : state) : Prop :=
  sigint s = None /\ is_Some (optimizer s) /\ is_Some (grad_scaler s).

End Vocabulary.

(** ** Vocabulary of the run-level properties *)

Section RunVocabulary.
Context `{FW : Framework}.

(** The names files were saved under, in order. *)
Definition save_names (d : list event) : list string :=
  flat_map (fun e => match e with
                     | EvSave f _ => [f]
                     | _ => []
                     end) d.

(** The images the network was called on, in order. *)
Definition forward_images (d : list event) : list Tensor :=
  flat_map (fun e => match e with
                     | EvForward t => [t]
                     | _ => []
                     end) d.

(** Step and epoch of the entries sent to the tracker. *)
Definition log_steps (d : list event) : list (Z * Z) :=
  map (fun x => (x.1.2, x.2)) (wandb_logs d).

(** Events other than a forward pass, a tracker entry and a file operation. *)
Definition is_plain (e : event) : Prop :=
  match e with
  | EvForward _ | EvWandbLog _ _ _ | EvMkdir _ | EvSave _ _ => False
  | _ => True
  end.

(** The images the loop body hands to the network for the batches [bs]. *)
Definition device_images (bs : list Item) : list Tensor :=
  map (fun b => to_float32 (image b)) bs.

(** [epoch % 2 == 0] *)
Definition checkpointed (epoch : Z) : bool := bool_decide (epoch `mod` 2 = 0).

(** Between [s] and [s'] the files under [names] were written and no other
    file changed. *)
Definition writes (names : list string) (s s' : state) : Prop :=
  (forall f, f ∈ names -> is_Some (files s' !! f)) /\
  (forall f, f ∉ names -> files s' !! f = files s !! f).

(** The result of a process that ended without [KeyboardInterrupt] and
    without [sys.exit]. *)
Definition ended_otherwise (o : outcome) : Prop :=
  o = Completed \/ exists e, o = Uncaught e /\ e <> KeyboardInterrupt.

(** The step and epoch of the tracker entries of the epochs [es], for a
    step counter that stands at [g]. *)
Fixpoint steps_from (g : Z) (es : list Z) : list (Z * Z) :=
  match es with
  | [] => []
  | e :: es' => (g + 1, e) :: steps_from (g + 1) es'
  end.

(** The network's parameters are the same. *)
Definition same_params (s s' : state) : Prop := net_params s' = net_params s.

(** A process running [m] that ends otherwise leaves what is stored under
    the interrupt file's name as it was. *)
Definition spares_interrupted (m : M unit) : Prop :=
  forall s, ended_otherwise (run_process m s).1 -> same_interrupted s (run_process m s).2.

(** A signal that was pending when [m] started and is not pending when [m]
    ended was delivered inside [m].  [m] lets the signal through when every
    such run of [m] is left by [KeyboardInterrupt]. *)
Definition surfaces {A} (m : M A) : Prop :=
  forall s, is_Some (sigint s) -> sigint (m s).2 = None -> (m s).1 = Raise KeyboardInterrupt.

(** The default generator is as it was, and so are the generator objects
    that existed; objects may have been added. *)
Definition rng_grows (s s' : state) : Prop :=
  rng_default s' = rng_default s /\ exists new, rng_objects s' = (rng_objects s ++ new)%list.

(** The state in which the epoch loop starts when [training] is called on
    [s] with no interrupt pending. *)
Definition epochs_start (a : TrainArgs) (d1 d2 : Dataset) (s : state) : state :=
  set_grad_scaler (Some (scaler_init (amp a)))
    (set_scheduler (Some {| sched_mode := "max"; sched_patience := 2 |})
       (set_optimizer (Some {| lr := learning_rate a;
                               weight_decay := float_of_Q (1 # 100000000);
                               adam := adam_init (net_params s) |})
          (add_events [EvWandbInit; EvWandbConfig a;
                       EvLogging (MsgStartingTraining a (length d1) (length d2))]
             (after_splits d1 d2 s)))).

(** [TrainArgs] with other values for the arguments the loop never reads. *)
Definition with_unused (a : TrainArgs) (lr0 val : Float) (save : bool) (scale : Float)
  : TrainArgs :=
  {| epochs := epochs a; batch_size := batch_size a; learning_rate := lr0;
     val_percent := val; save_checkpoint := save; img_scale := scale; amp := amp a |}.

End RunVocabulary.

(** ** A small concrete framework, for running the script

    Floats are exact rationals; a tensor is its shape and one scalar; the
    parameters are a counter of optimizer steps.  The specialised dataset
    class rejects the training directories and accepts the testing ones. *)
Module Toy.

Definition tensor : Type := list Z * Q.

Definition sample (channels : Z) (v : Q) : tensor * tensor :=
  (([channels; 224; 224], v), ([224; 224], v)).

Definition stack (l : list (tensor * tensor)) : tensor * tensor :=
  match l with
  | [] => (([0], 0%Q), ([0], 0%Q))
  | (i, o) :: _ => ((Z.of_nat (length l) :: fst i, snd i), (Z.of_nat (length l) :: fst o, snd o))
  end.

Definition training_samples : list (tensor * tensor) :=
  [sample 3 1; sample 3 2; sample 3 3; sample 3 4; sample 3 5].
Definition testing_samples : list (tensor * tensor) :=
  [sample 3 6; sample 3 7].

Definition in_training (dir : Path) : bool := bool_decide (dir !! 3%nat = Some "training").

Definition forward (amp : bool) (p : Z) (t : tensor) : result tensor :=
  Ok (fst t, Qred (snd t + inject_Z p)%Q).

(** The framework over given training and testing samples. *)
Definition framework_of (training testing : list (tensor * tensor)) : Framework := {|
  Float := Q;
  float_of_Q := fun q => q;
  float_add := fun x y => Qred (x + y)%Q;
  float_div := fun x k => Qred (x / inject_Z k)%Q;
  Tensor := tensor;
  shape := fst;
  to_float32 := fun t => t;
  shape_to_float32 := fun t => eq_refl;
  tensor_item := snd;
  collate := stack;
  CarvanaDataset_init := fun dir_img _ _ =>
    if in_training dir_img then Raise AssertionError else Ok testing;
  BasicDataset_init := fun dir_img _ _ =>
    if in_training dir_img then Ok training else Ok testing;
  Generator := Z;
  generator_fresh := 1;
  manual_seed := fun z => z;
  randperm := fun n g => if Z.even g then rev (seq 0 n) else seq 0 n;
  randperm_perm := fun n g =>
    match Z.even g as b return Permutation (if b then rev (seq 0 n) else seq 0 n) (seq 0 n) with
    | true => Permutation_sym (Permutation_rev (seq 0 n))
    | false => Permutation_refl (seq 0 n)
    end;
  randperm_next := fun _ g => g + 1;
  Params := Z;
  Grads := Z;
  AdamState := nat;
  Scaler := bool;
  unet_init := fun _ _ => 0;
  net_forward := forward;
  bce_loss := fun _ pred _ => Ok ([], snd pred);
  backward := fun _ p _ => p;
  adam_init := fun _ => O;
  scaler_init := fun b => b;
  scaler_step := fun _ _ _ ad p _ => (p + 1, S ad);
  scaler_update := fun b => b;
  cuda_is_available := false
|}.

Definition framework : Framework := framework_of training_samples testing_samples.

(** A training set whose second sample is a one-channel image. *)
Definition framework_gray : Framework :=
  framework_of [sample 3 1; sample 1 2; sample 3 3] testing_samples.

Definition args (epochs batch_size : Z) : @Args framework :=
  @Build_Args framework epochs batch_size (1 # 100000)%Q None 1%Q 10%Q false.

(** A fresh process: no file, no directory, and an interrupt after [k]
    statements for [sigint = Some k]. *)
Definition start (k : option nat) : @state framework :=
  @Build_state framework 0 None false None None None ∅ ∅ [] k 0 [].

End Toy.

(** * Properties *)

(** ** Running the monad *)

Section Running.
Context `{FW : Framework}.

Lemma bind_Ok {A B} (m : M A) (f : A -> M B) s a s1 :
  m s = (Ok a, s1) -> (m ≫= f) s = f a s1.
Proof. unfold mbind, M_bind. intros ->. reflexivity. Qed.

Lemma bind_Raise {A B} (m : M A) (f : A -> M B) s e s1 :
  m s = (Raise e, s1) -> (m ≫= f) s = (Raise e, s1).
Proof. unfold mbind, M_bind. intros ->. reflexivity. Qed.

Lemma bind_Ok_inv {A B} (m : M A) (f : A -> M B) s b s2 :
  (m ≫= f) s = (Ok b, s2) -> exists a s1, m s = (Ok a, s1) /\ f a s1 = (Ok b, s2).
Proof.
  unfold mbind, M_bind. destruct (m s) as [[a|e] s1]; intros H.
  - exists a, s1. split; [reflexivity | exact H].
  - discriminate H.
Qed.

(** A run is its result and its final state. *)
Lemma run_result {A} (m : M A) s r : (m s).1 = r -> m s = (r, (m s).2).
Proof. intros <-. destruct (m s); reflexivity. Qed.

Lemma tick_quiet s : sigint s = None -> tick s = (Ok tt, s).
Proof. unfold tick. intros ->. reflexivity. Qed.

Lemma stmt_quiet {A} (m : M A) s : sigint s = None -> stmt m s = m s.
Proof. intros H. unfold stmt. rewrite (bind_Ok _ _ _ _ _ (tick_quiet s H)). reflexivity. Qed.

Lemma run_stmt {A B} (m : M A) (f : A -> M B) s a s1 :
  sigint s = None -> m s = (Ok a, s1) -> (stmt m ≫= f) s = f a s1.
Proof. intros Hs Hm. apply bind_Ok. rewrite (stmt_quiet _ _ Hs). exact Hm. Qed.

Lemma run_stmt_raise {A B} (m : M A) (f : A -> M B) s e s1 :
  sigint s = None -> m s = (Raise e, s1) -> (stmt m ≫= f) s = (Raise e, s1).
Proof. intros Hs Hm. apply bind_Raise. rewrite (stmt_quiet _ _ Hs). exact Hm. Qed.

Lemma tick_Ok_inv s u s1 :
  tick s = (Ok u, s1) -> exists k, s1 = set_sigint k s.
Proof.
  unfold tick. destruct (sigint s) as [[|k]|] eqn:E; intros H; inversion H; subst.
  - exists (Some k). reflexivity.
  - exists None. destruct s1; simpl in *; subst; reflexivity.
Qed.

Lemma stmt_Ok_inv {A} (m : M A) s a s2 :
  stmt m s = (Ok a, s2) -> exists k, m (set_sigint k s) = (Ok a, s2).
Proof.
  intros H. apply bind_Ok_inv in H as (u & s1 & Ht & Hm).
  apply tick_Ok_inv in Ht as [k ->]. exists k. exact Hm.
Qed.

Lemma for_each_app {A B} (l1 l2 : list A) (body : A -> B -> M B) acc s :
  for_each (l1 ++ l2) body acc s =
  (acc' ← for_each l1 body acc; for_each l2 body acc') s.
Proof.
  revert acc s. induction l1 as [|x l1 IH]; intros acc s; simpl.
  - reflexivity.
  - unfold mbind, M_bind. destruct (body x acc s) as [[acc1|e] s1]; [|reflexivity].
    rewrite IH. reflexivity.
Qed.

(** ** Relations between the state before and after a computation *)

Section Preserves.
Context (R : state -> state -> Prop) `{!Frame R}.

Lemma pres_ret {A} (a : A) : preserves R (mret a).
Proof. intros s. reflexivity. Qed.

Lemma pres_raise {A} e : preserves R (@raise _ A e).
Proof. intros s. reflexivity. Qed.

Lemma pres_lift {A} (r : result A) : preserves R (lift r).
Proof. intros s. reflexivity. Qed.

Lemma pres_gets {A} (f : state -> A) : preserves R (gets f).
Proof. intros s. reflexivity. Qed.

Lemma pres_the {A} (f : state -> option A) : preserves R (the f).
Proof. intros s. unfold the. destruct (f s); reflexivity. Qed.

Lemma pres_bind {A B} (m : M A) (f : A -> M B) :
  preserves R m -> (forall a, preserves R (f a)) -> preserves R (m ≫= f).
Proof.
  intros Hm Hf s. specialize (Hm s). unfold mbind, M_bind.
  destruct (m s) as [[a|e] s1]; simpl in *.
  - etransitivity; [exact Hm | apply Hf].
  - exact Hm.
Qed.

Lemma pres_tick : preserves R tick.
Proof.
  intros s. unfold tick. destruct (sigint s) as [[|k]|]; simpl.
  - apply frame_sigint.
  - apply frame_sigint.
  - reflexivity.
Qed.

Lemma pres_stmt {A} (m : M A) : preserves R m -> preserves R (stmt m).
Proof. intros H. apply pres_bind; [apply pres_tick | intros _; exact H]. Qed.

(** A statement that only computes a value: what follows sees that value. *)
Lemma pres_let {A B} (x : A) (f : A -> M B) :
  preserves R (f x) -> preserves R (stmt (mret x) ≫= f).
Proof.
  intros Hf s. unfold stmt, mbind, M_bind, mret, M_ret.
  pose proof (pres_tick s) as Ht.
  destruct (tick s) as [[u|e] s1]; simpl in *; [|exact Ht].
  etransitivity; [exact Ht | apply Hf].
Qed.

(** When the first part always raises, the rest does not matter. *)
Lemma pres_bind_raises {A B} (m : M A) (f : A -> M B) :
  preserves R m -> (forall s a s1, m s <> (Ok a, s1)) -> preserves R (m ≫= f).
Proof.
  intros Hm Hr s. specialize (Hm s). specialize (Hr s). unfold mbind, M_bind.
  destruct (m s) as [[a|e] s1]; simpl in *; [|exact Hm].
  exfalso. apply (Hr a s1). reflexivity.
Qed.

Lemma pres_try {A} (body : M A) (handler : exn -> option (M A)) :
  preserves R body ->
  (forall e h, handler e = Some h -> preserves R h) ->
  preserves R (try_except body handler).
Proof.
  intros Hb Hh s. specialize (Hb s). unfold try_except.
  destruct (body s) as [[a|e] s1]; simpl in *; [exact Hb|].
  destruct (handler e) as [h|] eqn:E; simpl; [|exact Hb].
  etransitivity; [exact Hb | apply (Hh e h E)].
Qed.

Lemma pres_for_each {A B} (l : list A) (body : A -> B -> M B) acc :
  (forall x acc, preserves R (body x acc)) -> preserves R (for_each l body acc).
Proof.
  intros Hb. revert acc. induction l as [|x l IH]; intros acc; simpl.
  - apply pres_ret.
  - apply pres_bind; [apply Hb | intros acc'; apply IH].
Qed.

Lemma pres_py_truediv x k : preserves R (py_truediv x k).
Proof. unfold py_truediv. case_decide; [apply pres_raise | apply pres_ret]. Qed.

Lemma pres_py_floordiv x k : preserves R (py_floordiv x k).
Proof. unfold py_floordiv. case_decide; [apply pres_raise | apply pres_ret]. Qed.

Lemma pres_unpack2 {A} (l : list A) : preserves R (unpack2 l).
Proof.
  unfold unpack2. destruct l as [|a [|b [|c l]]];
    first [apply pres_raise | apply pres_ret].
Qed.

Lemma pres_except_structural {A} (h : M A) :
  preserves R h -> forall e h', except_structural h e = Some h' -> preserves R h'.
Proof. intros Hh e h' E. destruct e; simpl in E; inversion E; subst; exact Hh. Qed.

Lemma pres_except_interrupt :
  preserves R interrupt_handler ->
  forall e h, except_interrupt e = Some h -> preserves R h.
Proof. intros Hh e h E. destruct e; simpl in E; inversion E; subst; exact Hh. Qed.

Lemma preserves_run {A} (m : M A) s r s' : preserves R m -> m s = (r, s') -> R s s'.
Proof. intros Hm E. specialize (Hm s). rewrite E in Hm. exact Hm. Qed.

End Preserves.

End Running.

(** One statement of a run without pending interrupt: [tac] shows what the
    statement returns. *)
Ltac run_stmt_with tac :=
  etransitivity; [eapply run_stmt; [simpl; assumption | tac] | cbv beta].

(** Taking apart a run that returned. *)
Ltac inv_run :=
  repeat match goal with
  | H : stmt _ _ = (Ok _, _) |- _ => apply stmt_Ok_inv in H as [? H]
  | H : (_ ≫= _) _ = (Ok _, _) |- _ =>
      let H1 := fresh "Hrun" in apply bind_Ok_inv in H as (? & ? & H1 & H)
  | H : mret _ _ = (Ok _, _) |- _ => unfold mret, M_ret in H; inversion H; subst; clear H
  | H : lift _ _ = (Ok _, _) |- _ => unfold lift in H; inversion H; subst; clear H
  | H : gets _ _ = (Ok _, _) |- _ => unfold gets in H; inversion H; subst; clear H
  | H : emit _ _ = (Ok _, _) |- _ => unfold emit in H; inversion H; subst; clear H
  | H : update _ _ = (Ok _, _) |- _ => unfold update in H; inversion H; subst; clear H
  | H : raise _ _ = (Ok _, _) |- _ => discriminate H
  | H : mkdir _ _ = (Ok _, _) |- _ => unfold mkdir in H
  | H : torch_save _ _ = (Ok _, _) |- _ => unfold torch_save in H
  | H : (let '(_, _) := ?x in _) _ = (Ok _, _) |- _ => destruct x
  | H : (if ?b then _ else _) _ = (Ok _, _) |- _ => destruct b eqn:?
  end.

Ltac head_of t :=
  lazymatch t with
  | ?f _ => head_of f
  | _ => t
  end.

(** Splitting a computation into its statements; [leaf] closes the goals for
    [emit], [update] and [grad_scaler_step], which depend on the relation. *)
Ltac frame_apply lem := apply lem; try typeclasses eauto.

Ltac pres_step leaf :=
  lazymatch goal with
  | |- preserves _ (mret _) => frame_apply pres_ret
  | |- preserves _ (raise _) => frame_apply pres_raise
  | |- preserves _ (lift _) => frame_apply pres_lift
  | |- preserves _ (gets _) => frame_apply pres_gets
  | |- preserves _ (the _) => frame_apply pres_the
  | |- preserves _ tick => frame_apply pres_tick
  | |- preserves _ (py_truediv _ _) => frame_apply pres_py_truediv
  | |- preserves _ (py_floordiv _ _) => frame_apply pres_py_floordiv
  | |- preserves _ (unpack2 _) => frame_apply pres_unpack2
  | |- preserves _ (stmt (mret _) ≫= _) => frame_apply pres_let
  | |- preserves _ (stmt _) => frame_apply pres_stmt
  | |- preserves _ (_ ≫= _) => frame_apply pres_bind; [|intros ?]
  | |- preserves _ (for_each _ _ _) => frame_apply pres_for_each; intros ? ?
  | |- preserves _ (try_except _ (except_structural _)) =>
      frame_apply pres_try; [|frame_apply pres_except_structural]
  | |- preserves _ (match ?x with _ => _ end) => destruct x
  | |- preserves _ (emit _) => leaf
  | |- preserves _ (update _) => leaf
  | |- preserves _ grad_scaler_step => leaf
  | |- preserves _ (try_except _ except_interrupt) =>
      frame_apply pres_try; [|frame_apply pres_except_interrupt]
  | |- preserves _ ?m =>
      first [ match goal with H : _ |- _ => apply H end
            | let h := head_of m in unfold h ]
  end.
Ltac pres leaf := repeat (pres_step leaf).

Section Relations.
Context `{FW : Framework}.

(** *** The trace only grows, by events that satisfy [P] *)

Global Instance extends_frame P : Frame (extends P).
Proof.
  split; [split|].
  - intros s. exists []. rewrite app_nil_r. split; [reflexivity | constructor].
  - intros s1 s2 s3 (d1 & E1 & F1) (d2 & E2 & F2). exists (d1 ++ d2)%list.
    rewrite E2, E1, app_assoc. split; [reflexivity | apply Forall_app; split; assumption].
  - intros k s. exists []. simpl. rewrite app_nil_r. split; [reflexivity | constructor].
Qed.

Lemma extends_emit (P : event -> Prop) e : P e -> preserves (extends P) (emit e).
Proof. intros H s. exists [e]. simpl. split; [reflexivity | repeat constructor; exact H]. Qed.

Lemma extends_update (P : event -> Prop) f :
  (forall s, trace (f s) = trace s) -> preserves (extends P) (update f).
Proof.
  intros H s. exists []. simpl. rewrite H, app_nil_r. split; [reflexivity | constructor].
Qed.

Lemma extends_grad_scaler_step (P : event -> Prop) : preserves (extends P) grad_scaler_step.
Proof.
  intros s. exists []. rewrite app_nil_r. split; [|constructor].
  unfold grad_scaler_step.
  destruct (grad_scaler s), (optimizer s); try reflexivity.
  destruct (scaler_step _ _ _ _ _ _). reflexivity.
Qed.

(** *** The files and directories are the same *)

Global Instance same_fs_frame : Frame same_fs.
Proof.
  split; [split|].
  - intros s. split; reflexivity.
  - intros s1 s2 s3 [E1 F1] [E2 F2]. split; congruence.
  - intros k s. split; reflexivity.
Qed.

Lemma same_fs_emit e : preserves same_fs (emit e).
Proof. intros s. split; reflexivity. Qed.

Lemma same_fs_update f :
  (forall s, files (f s) = files s /\ dirs (f s) = dirs s) -> preserves same_fs (update f).
Proof. intros H s. apply H. Qed.

Lemma same_fs_grad_scaler_step : preserves same_fs grad_scaler_step.
Proof.
  intros s. unfold grad_scaler_step.
  destruct (grad_scaler s), (optimizer s); try (split; reflexivity).
  destruct (scaler_step _ _ _ _ _ _). split; reflexivity.
Qed.

(** *** A property of the state is kept *)

Global Instance keeps_lr_frame v : Frame (keeps (lr_is v)).
Proof.
  split; [split|].
  - intros s H. exact H.
  - intros s1 s2 s3 H1 H2 H. exact (H2 (H1 H)).
  - intros k s H. exact H.
Qed.

Lemma keeps_lr_emit v e : preserves (keeps (lr_is v)) (emit e).
Proof. intros s H. exact H. Qed.

Lemma keeps_lr_update v f :
  (forall s, optimizer (f s) = optimizer s) -> preserves (keeps (lr_is v)) (update f).
Proof. intros E s H o Ho. simpl in Ho. rewrite E in Ho. exact (H o Ho). Qed.

Lemma keeps_lr_grad_scaler_step v : preserves (keeps (lr_is v)) grad_scaler_step.
Proof.
  intros s H. unfold grad_scaler_step.
  destruct (grad_scaler s) as [sc|]; [|exact H].
  destruct (optimizer s) as [o|] eqn:Eo; [|exact H].
  destruct (scaler_step _ _ _ _ _ _) as [p' ad']. simpl.
  intros o' Ho'. simpl in Ho'. inversion Ho'; subst. simpl. apply H. exact Eo.
Qed.

End Relations.

Ltac extends_leaf :=
  first [ apply extends_grad_scaler_step
        | apply extends_update; intros ?; reflexivity
        | apply extends_emit; simpl ].

Ltac same_fs_leaf :=
  first [ apply same_fs_grad_scaler_step
        | apply same_fs_emit
        | apply same_fs_update; intros ?; split; reflexivity ].

Ltac keeps_lr_leaf :=
  first [ apply keeps_lr_grad_scaler_step
        | apply keeps_lr_emit
        | apply keeps_lr_update; intros ?; reflexivity ].

(** ** Dataset construction (lines 41-49) *)

Section DatasetConstruction.
Context `{FW : Framework}.

(** Without an interrupt, the [try] block is a function of what the two
    constructors do. *)
Lemma make_dataset_run dir_img dir_mask scale s :
  sigint s = None ->
  make_dataset dir_img dir_mask scale s =
  match CarvanaDataset_init dir_img dir_mask scale with
  | Ok ds => (Ok ds, add_events [EvDataset Carvana dir_img dir_mask] s)
  | Raise e =>
      if bool_decide (e = AssertionError \/ e = RuntimeError)
      then (BasicDataset_init dir_img dir_mask scale,
            add_events [EvDataset Carvana dir_img dir_mask;
                        EvDataset Basic dir_img dir_mask] s)
      else (Raise e, add_events [EvDataset Carvana dir_img dir_mask] s)
  end.
Proof.
  intros Hs. unfold make_dataset, try_except. rewrite (stmt_quiet _ _ Hs).
  unfold dataset_init, emit, lift, mbind, M_bind, add_events. simpl.
  destruct (CarvanaDataset_init dir_img dir_mask scale) as [ds|e]; [reflexivity|].
  destruct e; simpl; try reflexivity;
    (rewrite stmt_quiet by exact Hs; simpl; rewrite <- app_assoc; reflexivity).
Qed.

Lemma training_no_dataset net a d1 d2 :
  preserves (extends (fun e => ~ is_dataset_event e)) (training net a d1 d2).
Proof. pres ltac:(extends_leaf; simpl; tauto). Qed.

(** C5.  Each dataset is built by one [try] block at the start of
    [train_net]: the specialised class is called first; the generic class is
    called exactly when that call raised [AssertionError] or [RuntimeError],
    and then its result is the block's result, the first exception being
    dropped; any other exception of the specialised class leaves the block
    without a second attempt.  Nothing after the two blocks calls a dataset
    constructor again. *)
Theorem dataset_fallback_once net a :
  (forall dir_img dir_mask scale s,
     sigint s = None ->
     make_dataset dir_img dir_mask scale s =
     match CarvanaDataset_init dir_img dir_mask scale with
     | Ok ds => (Ok ds, add_events [EvDataset Carvana dir_img dir_mask] s)
     | Raise e =>
         if bool_decide (e = AssertionError \/ e = RuntimeError)
         then (BasicDataset_init dir_img dir_mask scale,
               add_events [EvDataset Carvana dir_img dir_mask;
                           EvDataset Basic dir_img dir_mask] s)
         else (Raise e, add_events [EvDataset Carvana dir_img dir_mask] s)
     end) /\
  train_net net a =
    (dataset_training ← make_dataset dir_img_training dir_mask_training (img_scale a);
     dataset_testing ← make_dataset dir_img_testing dir_mask_testing (img_scale a);
     training net a dataset_training dataset_testing) /\
  (forall d1 d2 s, exists d,
     trace (training net a d1 d2 s).2 = (trace s ++ d)%list /\
     Forall (fun e => ~ is_dataset_event e) d).
Proof.
  split; [|split].
  - intros. apply make_dataset_run. assumption.
  - reflexivity.
  - intros d1 d2 s. apply (training_no_dataset net a d1 d2 s).
Qed.

End DatasetConstruction.

(** A run of the first [try] block on the small framework: the specialised
    class rejects the training directories and the generic one is used. *)
Lemma dataset_fallback_once_witness :
  sigint (Toy.start None) = None /\
  make_dataset (FW := Toy.framework) dir_img_training dir_mask_training 1%Q (Toy.start None) =
    (Ok Toy.training_samples,
     add_events [EvDataset Carvana dir_img_training dir_mask_training;
                 EvDataset Basic dir_img_training dir_mask_training] (Toy.start None)).
Proof.
  split; [reflexivity|].
  exact (proj1 (dataset_fallback_once (FW := Toy.framework) unet (train_args (Toy.args 2 2)))
               dir_img_training dir_mask_training 1%Q (Toy.start None) eq_refl).
Defined.

(** ** The split and the loaders (lines 52-60) *)

Section Split.
Context `{FW : Framework}.

Lemma length_randperm n g : length (randperm n g) = n.
Proof. rewrite (Permutation_length (randperm_perm n g)). apply length_seq. Qed.


Lemma omap_lookup_seq (l0 l : list Item) :
  omap (fun i => (l0 ++ l) !! i) (seq (length l0) (length l)) = l.
Proof.
  revert l0. induction l as [|x l IH]; intros l0; simpl.
  - reflexivity.
  - rewrite list_lookup_middle by reflexivity. f_equal.
    replace (l0 ++ x :: l) with ((l0 ++ [x]) ++ l) by (rewrite <- app_assoc; reflexivity).
    replace (S (length l0)) with (length (l0 ++ [x])) by (rewrite length_app; simpl; lia).
    apply IH.
Qed.

(** A subset over a permutation of all indices holds the dataset's items. *)
Lemma subset_items_perm (ds : Dataset) (ix : list nat) :
  Permutation ix (seq 0 (length ds)) ->
  Permutation (subset_items {| sub_dataset := ds; sub_indices := ix |}) ds.
Proof.
  intros H. unfold subset_items. simpl. rewrite H.
  pose proof (omap_lookup_seq [] ds) as E. simpl in E.
  match goal with |- Permutation ?x _ => change x with (omap (fun i => ds !! i) (seq 0 (length ds))) end.
  match goal with |- Permutation ?x _ => replace x with ds by (symmetry; exact E) end.
  reflexivity.
Qed.

Lemma random_split_Ok_inv ds lengths g subs :
  random_split ds lengths g = Ok subs ->
  sum_list lengths = length ds /\
  map sub_indices subs = slices (randperm (sum_list lengths) g) lengths /\
  Forall (fun sub => sub_dataset sub = ds) subs.
Proof.
  unfold random_split. case_decide as E; [|discriminate]. intros H. inversion H; subst.
  split; [exact E|]. split.
  - rewrite map_map. simpl. apply map_id.
  - apply Forall_forall. intros sub Hin. apply list_elem_of_In, in_map_iff in Hin as (ix & <- & _).
    reflexivity.
Qed.

Lemma random_split_all_first ds g :
  random_split ds [length ds; 0%nat] g =
  Ok [ {| sub_dataset := ds; sub_indices := randperm (length ds) g |};
       {| sub_dataset := ds; sub_indices := [] |} ].
Proof.
  unfold random_split. simpl. replace (length ds + 0)%nat with (length ds) by lia.
  case_decide; [|congruence]. simpl.
  rewrite take_ge by (rewrite length_randperm; lia).
  rewrite take_0. reflexivity.
Qed.

Lemma random_split_all_second ds g :
  random_split ds [0%nat; length ds] g =
  Ok [ {| sub_dataset := ds; sub_indices := [] |};
       {| sub_dataset := ds; sub_indices := randperm (length ds) g |} ].
Proof.
  unfold random_split. simpl. replace (length ds + 0)%nat with (length ds) by lia.
  case_decide; [|congruence]. simpl. rewrite take_0, drop_0.
  rewrite take_ge by (rewrite length_randperm; lia). reflexivity.
Qed.

(** A generator made for one split: constructed, seeded with 0, drawn from
    once.  The split sees the seeded state; the object stays behind in the
    state it was left in. *)
Lemma gen_state_new v s :
  gen_state (GenObj (length (rng_objects s))) (add_generator v s) = Some v.
Proof. simpl. apply list_lookup_middle. reflexivity. Qed.

Lemma set_gen_state_new v w s :
  set_gen_state (GenObj (length (rng_objects s))) w (add_generator v s) = add_generator w s.
Proof.
  unfold set_gen_state, add_generator. simpl.
  rewrite insert_app_r_alt by lia. rewrite Nat.sub_diag. reflexivity.
Qed.

Lemma fresh_split_run {B} ds lengths (k : list Subset -> M B) s :
  (g ← new_Generator; g ← generator_manual_seed g 0;
   l ← random_split_on ds lengths g; k l) s =
  match random_split ds lengths (manual_seed 0) with
  | Ok subs => k subs (add_generator (randperm_next (sum_list lengths) (manual_seed 0)) s)
  | Raise e => (Raise e, add_generator (manual_seed 0) s)
  end.
Proof.
  unfold new_Generator, generator_manual_seed, random_split_on.
  unfold mbind, M_bind, gets, update, the, lift, mret, M_ret.
  rewrite gen_state_new, set_gen_state_new, gen_state_new.
  destruct (random_split ds lengths (manual_seed 0)) as [subs|e]; [|reflexivity].
  rewrite set_gen_state_new. reflexivity.
Qed.

Lemma split_first_run ds s :
  (g ← new_Generator; g ← generator_manual_seed g 0;
   l ← random_split_on ds [length ds; 0%nat] g; unpack2 l) s =
  (Ok ({| sub_dataset := ds; sub_indices := randperm (length ds) (manual_seed 0) |},
       {| sub_dataset := ds; sub_indices := [] |}),
   add_generator (randperm_next (length ds) (manual_seed 0)) s).
Proof.
  rewrite fresh_split_run, random_split_all_first. simpl.
  replace (length ds + 0)%nat with (length ds) by lia. reflexivity.
Qed.

Lemma split_second_run ds s :
  (g ← new_Generator; g ← generator_manual_seed g 0;
   l ← random_split_on ds [0%nat; length ds] g; unpack2 l) s =
  (Ok ({| sub_dataset := ds; sub_indices := [] |},
       {| sub_dataset := ds; sub_indices := randperm (length ds) (manual_seed 0) |}),
   add_generator (randperm_next (length ds) (manual_seed 0)) s).
Proof.
  rewrite fresh_split_run, random_split_all_second. simpl.
  replace (length ds + 0)%nat with (length ds) by lia. reflexivity.
Qed.

Lemma make_loaders_run a d1 d2 s :
  sigint s = None ->
  make_loaders a d1 d2 s =
  if decide (batch_size a <= 0) then (Raise ValueError, after_splits d1 d2 s)
  else (Ok (loaders_of a d1 d2), after_splits d1 d2 s).
Proof.
  intros Hs. unfold make_loaders.
  run_stmt_with ltac:(reflexivity).
  run_stmt_with ltac:(reflexivity).
  run_stmt_with ltac:(apply split_first_run).
  run_stmt_with ltac:(apply split_second_run).
  run_stmt_with ltac:(reflexivity).
  unfold mbind, M_bind. rewrite stmt_quiet by (simpl; exact Hs). unfold lift, new_DataLoader.
  case_decide; [reflexivity|]. rewrite stmt_quiet by (simpl; exact Hs). reflexivity.
Qed.

Lemma unpack2_Ok_inv {A} (l : list A) s x y s' :
  unpack2 l s = (Ok (x, y), s') -> l = [x; y] /\ s' = s.
Proof.
  destruct l as [|a [|b [|c l]]]; simpl; intros H; inversion H; subst. split; reflexivity.
Qed.

(** A run of [make_loaders] that returned, whatever the interrupt did. *)
Lemma make_loaders_Ok_inv a d1 d2 s r s' :
  make_loaders a d1 d2 s = (Ok r, s') -> r = loaders_of a d1 d2 /\ 0 < batch_size a.
Proof.
  unfold make_loaders. intros H.
  apply bind_Ok_inv in H as (n_val & sa & H1 & H). apply stmt_Ok_inv in H1 as [ta H1].
  inversion H1; subst; clear H1.
  apply bind_Ok_inv in H as (n_train & sb & H1 & H). apply stmt_Ok_inv in H1 as [tb H1].
  inversion H1; subst; clear H1.
  apply bind_Ok_inv in H as ([train_set e1] & sc & H1 & H). apply stmt_Ok_inv in H1 as [tc H1].
  rewrite split_first_run in H1. inversion H1; subst; clear H1.
  apply bind_Ok_inv in H as ([e2 val_set] & sd & H1 & H). apply stmt_Ok_inv in H1 as [td H1].
  rewrite split_second_run in H1. inversion H1; subst; clear H1.
  inv_run.
  unfold new_DataLoader in *. case_decide; [discriminate|].
  repeat match goal with H : Ok _ = Ok _ |- _ => inversion H; subst; clear H end.
  split; [reflexivity | lia].
Qed.


(** *** The script's generators *)

Global Instance rng_grows_frame : Frame rng_grows.
Proof.
  split; [split|].
  - intros s. split; [reflexivity|]. exists []. rewrite app_nil_r. reflexivity.
  - intros s1 s2 s3 [E1 [n1 O1]] [E2 [n2 O2]]. split; [congruence|].
    exists (n1 ++ n2). rewrite O2, O1, app_assoc. reflexivity.
  - intros k s. split; [reflexivity|]. exists []. simpl. rewrite app_nil_r. reflexivity.
Qed.

Lemma rng_grows_same s s' :
  rng_default s' = rng_default s -> rng_objects s' = rng_objects s -> rng_grows s s'.
Proof. intros E O. split; [exact E|]. exists []. rewrite app_nil_r. exact O. Qed.

Lemma rng_grows_grad_scaler_step : preserves rng_grows grad_scaler_step.
Proof.
  intros s. apply rng_grows_same; unfold grad_scaler_step;
    destruct (grad_scaler s), (optimizer s); try reflexivity;
    destruct (scaler_step _ _ _ _ _ _); reflexivity.
Qed.

(** A split on a generator made for it adds that generator and touches no
    other. *)
Lemma rng_grows_fresh_split ds lengths :
  preserves rng_grows (g ← new_Generator; g ← generator_manual_seed g 0;
                       l ← random_split_on ds lengths g; unpack2 l).
Proof.
  intros s. rewrite fresh_split_run.
  destruct (random_split ds lengths (manual_seed 0)) as [subs|e].
  - destruct subs as [|x [|y [|z l]]]; (split; [reflexivity | eexists [_]; reflexivity]).
  - split; [reflexivity | eexists [_]; reflexivity].
Qed.

Lemma main_rng_grows args : preserves rng_grows (main args).
Proof.
  repeat first
    [ apply rng_grows_fresh_split
    | pres_step ltac:(first [ apply rng_grows_grad_scaler_step
                            | intros st; apply rng_grows_same; reflexivity ]) ].
Qed.

(** C8.  A generator is an object whose state every draw advances, and the
    process has a default generator besides the objects the script makes.
    Each of the two splits constructs a generator of its own, seeds it with
    0 and draws its permutation from it.  So the index lists are a function
    of the lengths asked for and of the seed: two datasets of the same
    length get the same assignment, the slices of the one permutation drawn
    from the seeded state.  Two runs of lines 52-60 over the same datasets,
    started in any two process states, whatever their generators hold, give
    the same subsets and the same batches: the training indices are the
    permutation of the seeded state for the training length, and the testing
    indices the permutation of the seeded state for the testing length, not
    of the state the first draw left.  The objects stay behind, each
    advanced by its one draw.  Nothing in the script draws from the default
    generator or from a generator that existed before: over the whole of
    [__main__] these are as they were. *)
Theorem split_deterministic :
  (forall seed lengths (d1 d2 : Dataset) subs1,
     length d1 = length d2 ->
     random_split d1 lengths (manual_seed seed) = Ok subs1 ->
     exists subs2,
       random_split d2 lengths (manual_seed seed) = Ok subs2 /\
       map sub_indices subs1 = map sub_indices subs2 /\
       map sub_indices subs1 = slices (randperm (sum_list lengths) (manual_seed seed)) lengths) /\
  (forall a d1 d2 s1 s2 r1 r2 s1' s2',
     make_loaders a d1 d2 s1 = (Ok r1, s1') ->
     make_loaders a d1 d2 s2 = (Ok r2, s2') ->
     r1 = r2) /\
  (forall a d1 d2 s r s',
     make_loaders a d1 d2 s = (Ok r, s') ->
     sub_indices (dl_subset r.1.2) = randperm (length d1) (manual_seed 0) /\
     sub_indices (dl_subset r.2) = randperm (length d2) (manual_seed 0)) /\
  (forall a d1 d2 s,
     sigint s = None ->
     rng_default (make_loaders a d1 d2 s).2 = rng_default s /\
     rng_objects (make_loaders a d1 d2 s).2 =
       rng_objects s ++ [randperm_next (length d1) (manual_seed 0);
                         randperm_next (length d2) (manual_seed 0)]) /\
  (forall args s,
     rng_default (main args s).2 = rng_default s /\
     exists new, rng_objects (main args s).2 = rng_objects s ++ new).
Proof.
  split; [|split; [|split; [|split]]].
  - intros seed lengths d1 d2 subs1 Hlen H1.
    pose proof (random_split_Ok_inv _ _ _ _ H1) as (E & Hix & _).
    unfold random_split. rewrite <- Hlen. case_decide; [|contradiction].
    eexists. split; [reflexivity|]. split; [|exact Hix].
    rewrite Hix, map_map. simpl. rewrite map_id. reflexivity.
  - intros a d1 d2 s1 s2 r1 r2 s1' s2' H1 H2.
    apply make_loaders_Ok_inv in H1 as [-> _]. apply make_loaders_Ok_inv in H2 as [-> _].
    reflexivity.
  - intros a d1 d2 s r s' H. apply make_loaders_Ok_inv in H as [-> _].
    split; reflexivity.
  - intros a d1 d2 s Hs. rewrite (make_loaders_run a d1 d2 s Hs).
    case_decide; simpl; rewrite <- app_assoc; split; reflexivity.
  - intros args s. apply (main_rng_grows args s).
Qed.

End Split.


(** The loaders of the small framework, built in a fresh process and in one
    whose default generator and earlier generator objects hold other
    states. *)
Lemma split_deterministic_witness :
  let a := train_args (Toy.args 2 2) in
  let tr : @Dataset Toy.framework := Toy.training_samples in
  let te : @Dataset Toy.framework := Toy.testing_samples in
  let s1 := Toy.start None in
  let s2 := @Build_state Toy.framework 0 None false None None None ∅ ∅ [] None 7 [3; 4] in
  exists r1 r2 s1' s2',
    make_loaders a tr te s1 = (Ok r1, s1') /\
    make_loaders a tr te s2 = (Ok r2, s2') /\
    r1 = r2.
Proof.
  intros a tr te s1 s2.
  assert (H1 : make_loaders a tr te s1 = (Ok (loaders_of a tr te), after_splits tr te s1))
    by (rewrite make_loaders_run by reflexivity; reflexivity).
  assert (H2 : make_loaders a tr te s2 = (Ok (loaders_of a tr te), after_splits tr te s2))
    by (rewrite make_loaders_run by reflexivity; reflexivity).
  eexists _, _, _, _. split; [exact H1|]. split; [exact H2|].
  exact (proj1 (proj2 (split_deterministic (FW := Toy.framework)))
               a tr te s1 s2 _ _ _ _ H1 H2).
Defined.

(** For contrast, splits that draw from the default generator: the
    assignment follows that generator's state, and a second split sees the
    state the first one left. *)
Example split_on_default_generator_varies :
  let r1 := random_split_on (FW := Toy.framework) Toy.testing_samples [2%nat; 0%nat]
              DefaultGen (Toy.start None) in
  let r2 := random_split_on (FW := Toy.framework) Toy.testing_samples [2%nat; 0%nat]
              DefaultGen r1.2 in
  r1.1 = Ok [ @Build_Subset Toy.framework Toy.testing_samples [1; 0]%nat;
              @Build_Subset Toy.framework Toy.testing_samples [] ] /\
  r2.1 = Ok [ @Build_Subset Toy.framework Toy.testing_samples [0; 1]%nat;
              @Build_Subset Toy.framework Toy.testing_samples [] ] /\
  rng_default r2.2 = 2.
Proof. repeat split; reflexivity. Qed.

(** ** Checkpoint files *)

Lemma string_length_app (s1 s2 : string) :
  String.length (s1 +:+ s2) = (String.length s1 + String.length s2)%nat.
Proof. induction s1 as [|c s1 IH]; simpl; [reflexivity | rewrite IH; reflexivity]. Qed.

Lemma string_app_inv_tail (t s1 s2 : string) : s1 +:+ t = s2 +:+ t -> s1 = s2.
Proof.
  revert s2. induction s1 as [|c s1 IH]; intros [|d s2] H.
  - reflexivity.
  - apply (f_equal String.length) in H. rewrite !string_length_app in H. simpl in H. lia.
  - apply (f_equal String.length) in H. rewrite !string_length_app in H. simpl in H. lia.
  - cbn in H. injection H as -> H. f_equal. apply IH. exact H.
Qed.

Lemma checkpoint_file_unfold epoch :
  checkpoint_file epoch =
  "checkpoints/checkpoint_epoch_224x224_" +:+ (pretty (epoch + 1) +:+ ".pth").
Proof. reflexivity. Qed.

Lemma checkpoint_file_inj e1 e2 : checkpoint_file e1 = checkpoint_file e2 -> e1 = e2.
Proof.
  rewrite !checkpoint_file_unfold. intros H.
  apply String.app_inj in H. apply string_app_inv_tail in H.
  apply pretty_Z_inj in H. lia.
Qed.

Lemma checkpoint_file_not_interrupted epoch : checkpoint_file epoch <> interrupted_file.
Proof. rewrite checkpoint_file_unfold. unfold interrupted_file. simpl. discriminate. Qed.

Section Checkpoints.
Context `{FW : Framework}.

Lemma filter_fs_none (d : list event) :
  Forall (fun e => is_fs_event e = false) d -> List.filter is_fs_event d = [].
Proof.
  induction 1 as [|e d He _ IH]; simpl; [reflexivity|]. rewrite He. exact IH.
Qed.

Lemma train_batches_same_fs net a bs acc : preserves same_fs (train_batches net a bs acc).
Proof. pres same_fs_leaf. Qed.

Lemma train_batches_no_fs net a bs acc :
  preserves (extends (fun e => is_fs_event e = false)) (train_batches net a bs acc).
Proof. pres ltac:(extends_leaf; reflexivity). Qed.

Lemma log_epoch_same_fs a n e l g : preserves same_fs (log_epoch a n e l g).
Proof. pres same_fs_leaf. Qed.

Lemma log_epoch_no_fs a n e l g :
  preserves (extends (fun e => is_fs_event e = false)) (log_epoch a n e l g).
Proof. pres ltac:(extends_leaf; reflexivity). Qed.

Lemma checkpoint_Ok_inv epoch s u s' :
  checkpoint epoch s = (Ok u, s') ->
  net_params s' = net_params s /\
  if decide (epoch `mod` 2 = 0) then
    files s' = <[checkpoint_file epoch := net_params s]> (files s) /\
    dirs s' = {[ path_str dir_checkpoint ]} ∪ dirs s /\
    trace s' = trace s ++ [EvMkdir (path_str dir_checkpoint);
                           EvSave (checkpoint_file epoch) (net_params s);
                           EvLogging (MsgCheckpointSaved (epoch + 1))]
  else files s' = files s /\ dirs s' = dirs s /\ trace s' = trace s.
Proof.
  unfold checkpoint. intros H. inv_run.
  - apply bool_decide_eq_true in Heqb. case_decide; [|contradiction]. simpl.
    rewrite <- !app_assoc. repeat split; reflexivity.
  - apply bool_decide_eq_false in Heqb. case_decide; [contradiction|]. simpl.
    repeat split; reflexivity.
Qed.

Lemma run_epoch_Ok_inv net a n_train tl epoch g s g' s' :
  run_epoch net a n_train tl epoch g s = (Ok g', s') ->
  exists k1 k2 k3 l s1 s2,
    train_batches net a (batches tl) (float_of_Q 0)
      (add_events [EvPbarOpen n_train (epoch + 1)]
         (set_sigint k3 (set_sigint k2 (set_net_training true (set_sigint k1 s)))))
    = (Ok l, s1) /\
    log_epoch a n_train epoch l g s1 = (Ok g', s2) /\
    checkpoint epoch s2 = (Ok tt, s').
Proof.
  unfold run_epoch. intros H. inv_run.
  match goal with H : checkpoint _ _ = (Ok ?u, _) |- _ => destruct u end.
  match goal with
  | H1 : train_batches _ _ _ _ (set_trace _ (set_sigint ?k3 (set_sigint ?k2 (_ (set_sigint ?k1 _)))))
         = (Ok ?l, ?s1),
    H2 : log_epoch _ _ _ _ _ _ = (Ok _, ?s2) |- _ =>
      exists k1, k2, k3, l, s1, s2; split; [exact H1 | split; assumption]
  end.
Qed.

(** C3.  After an epoch that ran to its end, the file system has changed as
    follows.  If the epoch's index is even, the checkpoint directory was made
    and then the network's parameters were saved under the name that embeds
    the index plus one: these are the epoch's only two file operations, the
    directory exists and the file holds the parameters.  If the index is odd,
    the epoch made no file operation and left files and directories as they
    were.  Different epochs write different names. *)
Theorem checkpoint_iff_even_epoch net a n_train tl epoch g s g' s' :
  run_epoch net a n_train tl epoch g s = (Ok g', s') ->
  (exists d,
     trace s' = trace s ++ d /\
     if decide (epoch `mod` 2 = 0) then
       List.filter is_fs_event d =
         [EvMkdir (path_str dir_checkpoint); EvSave (checkpoint_file epoch) (net_params s')] /\
       files s' = <[checkpoint_file epoch := net_params s']> (files s) /\
       dirs s' = {[ path_str dir_checkpoint ]} ∪ dirs s
     else
       List.filter is_fs_event d = [] /\ files s' = files s /\ dirs s' = dirs s) /\
  (forall e1 e2, checkpoint_file e1 = checkpoint_file e2 -> e1 = e2).
Proof.
  intros H. split; [|apply checkpoint_file_inj].
  apply run_epoch_Ok_inv in H as (k1 & k2 & k3 & l & s1 & s2 & Hb & Hl & Hc).
  pose proof (preserves_run _ _ _ _ _ (train_batches_same_fs net a _ _) Hb) as [Fb Db].
  pose proof (preserves_run _ _ _ _ _ (train_batches_no_fs net a _ _) Hb) as (db & Tb & Pb).
  pose proof (preserves_run _ _ _ _ _ (log_epoch_same_fs a _ _ _ _) Hl) as [Fl Dl].
  pose proof (preserves_run _ _ _ _ _ (log_epoch_no_fs a _ _ _ _) Hl) as (dl & Tl & Pl).
  apply checkpoint_Ok_inv in Hc as [Hp Hc].
  simpl in Fb, Db, Tb.
  case_decide.
  - destruct Hc as (Fc & Dc & Tc).
    exists ([EvPbarOpen n_train (epoch + 1)] ++ db ++ dl ++
            [EvMkdir (path_str dir_checkpoint);
             EvSave (checkpoint_file epoch) (net_params s2);
             EvLogging (MsgCheckpointSaved (epoch + 1))]).
    split; [rewrite Tc, Tl, Tb, <- !app_assoc; reflexivity|].
    rewrite !List.filter_app, (filter_fs_none _ Pb), (filter_fs_none _ Pl). simpl.
    rewrite Hp, Fc, Dc, Fl, Dl, Fb, Db. repeat split; reflexivity.
  - destruct Hc as (Fc & Dc & Tc).
    exists ([EvPbarOpen n_train (epoch + 1)] ++ db ++ dl).
    split; [rewrite Tc, Tl, Tb, <- !app_assoc; reflexivity|].
    rewrite !List.filter_app, (filter_fs_none _ Pb), (filter_fs_none _ Pl). simpl.
    rewrite Fc, Dc, Fl, Dl, Fb, Db. repeat split; reflexivity.
Qed.

End Checkpoints.

(** The first epoch of a run on the small framework, from a state in which
    the optimizer and the gradient scaler exist. *)
Lemma checkpoint_iff_even_epoch_witness :
  let s := @Build_state Toy.framework 0 None false
             (Some (@Build_Optimizer Toy.framework (1 # 100000)%Q (1 # 100000000)%Q O))
             None (Some false) ∅ ∅ [] None 0 [] in
  let tl := (loaders_of (train_args (Toy.args 2 2)) Toy.training_samples Toy.testing_samples).1.2 in
  let r := run_epoch unet (train_args (Toy.args 2 2)) 5 tl 0 0 s in
  r.1 = Ok 1 /\
  exists d : list (@event Toy.framework),
    trace r.2 = trace s ++ d /\
    List.filter is_fs_event d =
      [@EvMkdir Toy.framework "checkpoints";
       @EvSave Toy.framework "checkpoints/checkpoint_epoch_224x224_1.pth" 3] /\
    files r.2 = <["checkpoints/checkpoint_epoch_224x224_1.pth" := 3]> ∅ /\
    dirs r.2 = {[ "checkpoints" ]} ∪ ∅.
Proof.
  intros s tl r.
  assert (H1 : r.1 = Ok 1) by (vm_compute; reflexivity).
  split; [exact H1|].
  destruct (checkpoint_iff_even_epoch _ _ _ _ _ _ _ _ _ (run_result _ _ _ H1)) as [W _].
  exact W.
Defined.

(** ** A delivered signal leaves [train_net] as [KeyboardInterrupt] *)

Section Signals.
Context `{FW : Framework}.

(** What does not touch the pending interrupt cannot deliver it. *)
Lemma surf_quiet {A} (m : M A) : (forall s, sigint (m s).2 = sigint s) -> surfaces m.
Proof. intros H s [k Hk] Hn. rewrite H, Hk in Hn. discriminate Hn. Qed.

Lemma surf_ret {A} (a : A) : surfaces (mret a).
Proof. apply surf_quiet. reflexivity. Qed.

Lemma surf_raise {A} e : surfaces (@raise _ A e).
Proof. apply surf_quiet. reflexivity. Qed.

Lemma surf_lift {A} (r : result A) : surfaces (lift r).
Proof. apply surf_quiet. reflexivity. Qed.

Lemma surf_gets {A} (f : state -> A) : surfaces (gets f).
Proof. apply surf_quiet. reflexivity. Qed.

Lemma surf_emit e : surfaces (emit e).
Proof. apply surf_quiet. reflexivity. Qed.

Lemma surf_update f : (forall s, sigint (f s) = sigint s) -> surfaces (update f).
Proof. intros H. apply surf_quiet. exact H. Qed.

Lemma surf_the {A} (f : state -> option A) : surfaces (the f).
Proof. apply surf_quiet. intros s. unfold the. destruct (f s); reflexivity. Qed.

Lemma surf_grad_scaler_step : surfaces grad_scaler_step.
Proof.
  apply surf_quiet. intros s. unfold grad_scaler_step.
  destruct (grad_scaler s), (optimizer s); try reflexivity.
  destruct (scaler_step _ _ _ _ _ _). reflexivity.
Qed.

Lemma surf_py_truediv x k : surfaces (py_truediv x k).
Proof. unfold py_truediv. case_decide; [apply surf_raise | apply surf_ret]. Qed.

Lemma surf_py_floordiv x k : surfaces (py_floordiv x k).
Proof. unfold py_floordiv. case_decide; [apply surf_raise | apply surf_ret]. Qed.

Lemma surf_unpack2 {A} (l : list A) : surfaces (unpack2 l).
Proof.
  unfold unpack2. destruct l as [|a [|b [|c l]]];
    first [apply surf_raise | apply surf_ret].
Qed.

(** The start of a statement is where the signal is delivered. *)
Lemma surf_tick : surfaces tick.
Proof.
  intros s [k Hk] Hn. unfold tick in *. rewrite Hk in *.
  destruct k as [|k]; [reflexivity | discriminate Hn].
Qed.

Lemma surf_bind {A B} (m : M A) (f : A -> M B) :
  surfaces m -> (forall a, surfaces (f a)) -> surfaces (m ≫= f).
Proof.
  intros Hm Hf s Hk Hn. specialize (Hm s Hk). unfold mbind, M_bind in *.
  destruct (m s) as [[a|e] s1]; simpl in *.
  - destruct (sigint s1) as [k1|] eqn:E1.
    + apply Hf; [rewrite E1; eexists; reflexivity | exact Hn].
    + discriminate (Hm eq_refl).
  - specialize (Hm Hn). inversion Hm; subst. reflexivity.
Qed.

Lemma surf_stmt {A} (m : M A) : surfaces m -> surfaces (stmt m).
Proof. intros H. apply surf_bind; [apply surf_tick | intros _; exact H]. Qed.

Lemma surf_for_each {A B} (l : list A) (body : A -> B -> M B) acc :
  (forall x acc, surfaces (body x acc)) -> surfaces (for_each l body acc).
Proof.
  intros Hb. revert acc. induction l as [|x l IH]; intros acc; simpl.
  - apply surf_ret.
  - apply surf_bind; [apply Hb | intros acc'; apply IH].
Qed.

(** A [try] lets the signal through when its clause does not match
    [KeyboardInterrupt]. *)
Lemma surf_try {A} (body : M A) (handler : exn -> option (M A)) :
  surfaces body ->
  handler KeyboardInterrupt = None ->
  (forall e h, handler e = Some h -> surfaces h) ->
  surfaces (try_except body handler).
Proof.
  intros Hb Hki Hh s Hk Hn. specialize (Hb s Hk). unfold try_except in *.
  destruct (body s) as [[a|e] s1]; simpl in *.
  - discriminate (Hb Hn).
  - destruct (sigint s1) as [k1|] eqn:E1.
    + destruct (handler e) as [h|] eqn:E.
      * apply (Hh e h E); [rewrite E1; eexists; reflexivity | exact Hn].
      * simpl in Hn. rewrite E1 in Hn. discriminate Hn.
    + specialize (Hb eq_refl). inversion Hb; subst. rewrite Hki. reflexivity.
Qed.

Lemma surf_except_structural {A} (h : M A) :
  surfaces h -> forall e h', except_structural h e = Some h' -> surfaces h'.
Proof. intros Hh e h' E. destruct e; simpl in E; inversion E; subst; exact Hh. Qed.

End Signals.

Ltac surf_step :=
  lazymatch goal with
  | |- surfaces (mret _) => apply surf_ret
  | |- surfaces (raise _) => apply surf_raise
  | |- surfaces (lift _) => apply surf_lift
  | |- surfaces (gets _) => apply surf_gets
  | |- surfaces (the _) => apply surf_the
  | |- surfaces (emit _) => apply surf_emit
  | |- surfaces (update _) => apply surf_update; intros ?; reflexivity
  | |- surfaces grad_scaler_step => apply surf_grad_scaler_step
  | |- surfaces tick => apply surf_tick
  | |- surfaces (py_truediv _ _) => apply surf_py_truediv
  | |- surfaces (py_floordiv _ _) => apply surf_py_floordiv
  | |- surfaces (unpack2 _) => apply surf_unpack2
  | |- surfaces (stmt _) => apply surf_stmt
  | |- surfaces (_ ≫= _) => apply surf_bind; [|intros ?]
  | |- surfaces (for_each _ _ _) => apply surf_for_each; intros ? ?
  | |- surfaces (try_except _ (except_structural _)) =>
      apply surf_try; [| reflexivity | apply surf_except_structural]
  | |- surfaces (match ?x with _ => _ end) => destruct x
  | |- surfaces ?m => let h := head_of m in unfold h
  end.

(** ** The interrupt handler (lines 190-202) *)

Section Interrupt.
Context `{FW : Framework}.

Global Instance same_interrupted_frame : Frame same_interrupted.
Proof.
  split; [split|].
  - intros s. reflexivity.
  - intros s1 s2 s3 E1 E2. unfold same_interrupted in *. congruence.
  - intros k s. reflexivity.
Qed.

Lemma saves_to_none file (d : list event) :
  Forall (fun e => forall p, e <> EvSave file p) d -> saves_to file d = [].
Proof.
  induction 1 as [|e d He _ IH]; simpl; [reflexivity|]. rewrite IH.
  destruct e; try reflexivity. case_decide; [|reflexivity].
  subst. exfalso. eapply He. reflexivity.
Qed.

Lemma saves_to_app file (d1 d2 : list event) :
  saves_to file (d1 ++ d2) = saves_to file d1 ++ saves_to file d2.
Proof. unfold saves_to. apply flat_map_app. Qed.

Lemma train_net_no_interrupted_save net a :
  preserves (extends (fun e => forall p, e <> EvSave interrupted_file p))
            (stmt (train_net net a)).
Proof.
  pres ltac:(extends_leaf; intros p' E; try discriminate E; inversion E;
             eapply checkpoint_file_not_interrupted; eassumption).
Qed.

Lemma train_net_same_interrupted net a : preserves same_interrupted (train_net net a).
Proof.
  pres ltac:(first [ intros st; unfold same_interrupted, grad_scaler_step;
                     destruct (grad_scaler st), (optimizer st); try reflexivity;
                     destruct (scaler_step _ _ _ _ _ _); reflexivity
                   | intros st; unfold same_interrupted; simpl;
                     try reflexivity;
                     apply lookup_insert_ne, checkpoint_file_not_interrupted ]).
Qed.

Lemma interrupt_handler_run s :
  sigint s = None ->
  interrupt_handler s =
  (Raise (SystemExit 0),
   set_files (<[interrupted_file := net_params s]> (files s))
     (add_events [EvSave interrupted_file (net_params s); EvLogging MsgSavedInterrupt] s)).
Proof.
  intros Hs. unfold interrupt_handler.
  run_stmt_with ltac:(reflexivity).
  run_stmt_with ltac:(reflexivity).
  rewrite stmt_quiet by (simpl; exact Hs).
  unfold raise, add_events. simpl. rewrite <- app_assoc. reflexivity.
Qed.

Lemma guarded_train_interrupted net a s s2 :
  stmt (train_net net a) s = (Raise KeyboardInterrupt, s2) ->
  guarded_train net a s = interrupt_handler s2.
Proof. intros H. unfold guarded_train, try_except. rewrite H. reflexivity. Qed.

(** Nothing inside [train_net] catches the signal: the only [try] blocks
    there match [AssertionError] and [RuntimeError]. *)
Lemma train_net_surfaces net a : surfaces (stmt (train_net net a)).
Proof. repeat surf_step. Qed.

(** C4.  Let a signal be pending when the call of [train_net] on line 191
    starts, and let it arrive during the call, before whichever statement
    of the call: the signal is no longer pending when the call is left.
    Then the call is left by [KeyboardInterrupt], nothing inside having
    caught it, and the process ends through [sys.exit(0)]: its exit status
    is 0.  Before that the handler saves the parameters the network has at
    that moment under the fixed name [INTERRUPTED.pth], replacing what was
    stored there.  Over the whole invocation this is the only save under
    that name, whatever the training had done before. *)
Theorem interrupt_saves_once_and_exits_0 net a s k :
  sigint s = Some k ->
  sigint (stmt (train_net net a) s).2 = None ->
  exists s2 s3 d,
    stmt (train_net net a) s = (Raise KeyboardInterrupt, s2) /\
    run_process (guarded_train net a) s = (Exited 0, s3) /\
    exit_code (Exited 0) = Some 0 /\
    trace s3 = trace s ++ d /\
    saves_to interrupted_file d = [net_params s2] /\
    files s3 = <[interrupted_file := net_params s2]> (files s2) /\
    files s3 !! interrupted_file = Some (net_params s2) /\
    net_params s3 = net_params s2.
Proof.
  intros Hk Hs.
  assert (H : stmt (train_net net a) s =
              (Raise KeyboardInterrupt, (stmt (train_net net a) s).2)).
  { apply run_result. apply train_net_surfaces; [rewrite Hk; eexists; reflexivity | exact Hs]. }
  set (s2 := (stmt (train_net net a) s).2) in *.
  pose proof (preserves_run _ _ _ _ _ (train_net_no_interrupted_save net a) H) as (d & Td & Pd).
  exists s2. eexists _, (d ++ [EvSave interrupted_file (net_params s2); EvLogging MsgSavedInterrupt]).
  split; [exact H|]. split.
  - unfold run_process. rewrite (guarded_train_interrupted _ _ _ _ H).
    rewrite (interrupt_handler_run _ Hs). reflexivity.
  - simpl. rewrite Td, <- app_assoc.
    rewrite saves_to_app, (saves_to_none _ _ Pd). simpl.
    try (case_decide; [|contradiction]). rewrite lookup_insert_eq. repeat split; reflexivity.
Qed.

(** C10.  The periodic checkpoints are named under the directory
    [checkpoints]; the interrupt checkpoint is the bare name
    [INTERRUPTED.pth], relative to the working directory and not under
    [checkpoints].  No epoch's name equals it.  Training never changes what
    is stored under the interrupt name, and the interrupt handler changes no
    periodic checkpoint, makes no directory and leaves the set of
    directories as it is. *)
Theorem interrupt_checkpoint_apart net a :
  interrupted_file = "INTERRUPTED.pth" /\
  interrupted_file = path_str (path_div [] interrupted_file) /\
  String.prefix (path_str dir_checkpoint +:+ "/") interrupted_file = false /\
  (forall epoch,
     checkpoint_file epoch <> interrupted_file /\
     String.prefix (path_str dir_checkpoint +:+ "/") (checkpoint_file epoch) = true) /\
  (forall s, files (train_net net a s).2 !! interrupted_file = files s !! interrupted_file) /\
  (forall s s2,
     stmt (train_net net a) s = (Raise KeyboardInterrupt, s2) ->
     sigint s2 = None ->
     exists s3,
       guarded_train net a s = (Raise (SystemExit 0), s3) /\
       dirs s3 = dirs s2 /\
       trace s3 = trace s2 ++ [EvSave interrupted_file (net_params s2);
                               EvLogging MsgSavedInterrupt] /\
       forall epoch, files s3 !! checkpoint_file epoch = files s2 !! checkpoint_file epoch).
Proof.
  split; [reflexivity|]. split; [reflexivity|]. split; [reflexivity|]. split; [|split].
  - intros epoch. split; [apply checkpoint_file_not_interrupted | reflexivity].
  - intros s. apply (train_net_same_interrupted net a s).
  - intros s s2 H Hs. eexists. split.
    + rewrite (guarded_train_interrupted _ _ _ _ H). apply (interrupt_handler_run _ Hs).
    + simpl. repeat split. intros epoch.
      apply lookup_insert_ne. intros E. symmetry in E.
      exact (checkpoint_file_not_interrupted _ E).
Qed.

End Interrupt.

(** A signal thirty statements into a run on the small framework, in the
    middle of the first epoch. *)
Lemma interrupt_saves_once_and_exits_0_witness :
  let s := Toy.start (Some 30%nat) in
  let a := train_args (Toy.args 2 2) in
  sigint s = Some 30%nat /\
  sigint (stmt (train_net unet a) s).2 = None /\
  exists s2 s3 d,
    stmt (train_net unet a) s = (Raise KeyboardInterrupt, s2) /\
    run_process (guarded_train unet a) s = (Exited 0, s3) /\
    exit_code (Exited 0) = Some 0 /\
    trace s3 = trace s ++ d /\
    saves_to interrupted_file d = [net_params s2] /\
    files s3 = <[interrupted_file := net_params s2]> (files s2) /\
    files s3 !! interrupted_file = Some (net_params s2) /\
    net_params s3 = net_params s2.
Proof.
  intros s a.
  assert (H2 : sigint (stmt (train_net unet a) s).2 = None) by (vm_compute; reflexivity).
  split; [reflexivity|]. split; [exact H2|].
  exact (interrupt_saves_once_and_exits_0 unet a s 30%nat eq_refl H2).
Defined.

(** The whole run on the small framework takes 114 statements from the call
    of [train_net] on.  A signal before any one of them ends the process
    with status 0 and one save under the interrupt name. *)
Example interrupt_at_every_statement :
  forallb (fun k =>
             let r := run_process (guarded_train unet (train_args (Toy.args 2 2)))
                                  (Toy.start (Some k)) in
             match r.1 with Exited 0 => true | _ => false end &&
             (length (saves_to interrupted_file (trace r.2)) =? 1)%nat &&
             bool_decide (is_Some (files r.2 !! interrupted_file)))
          (seq 0 114) = true.
Proof. vm_compute. reflexivity. Qed.

(** The same interrupted run: the handler touches neither the directories nor
    the periodic checkpoints. *)
Lemma interrupt_checkpoint_apart_witness :
  let s := Toy.start (Some 30%nat) in
  let a := train_args (Toy.args 2 2) in
  let s2 := (stmt (train_net unet a) s).2 in
  (stmt (train_net unet a) s).1 = Raise KeyboardInterrupt /\
  sigint s2 = None /\
  exists s3,
    guarded_train unet a s = (Raise (SystemExit 0), s3) /\
    dirs s3 = dirs s2 /\
    trace s3 = trace s2 ++ [EvSave interrupted_file (net_params s2);
                            EvLogging MsgSavedInterrupt] /\
    forall epoch, files s3 !! checkpoint_file epoch = files s2 !! checkpoint_file epoch.
Proof.
  intros s a s2.
  assert (H1 : (stmt (train_net unet a) s).1 = Raise KeyboardInterrupt)
    by (vm_compute; reflexivity).
  assert (H2 : sigint s2 = None) by (vm_compute; reflexivity).
  split; [exact H1|]. split; [exact H2|].
  destruct (interrupt_checkpoint_apart unet a) as (_ & _ & _ & _ & _ & W).
  exact (W s s2 (run_result _ _ _ H1) H2).
Defined.

(** ** The end-of-epoch log (lines 113-123) *)

Section EpochLog.
Context `{FW : Framework}.

Lemma wandb_logs_none (d : list event) :
  Forall (fun e => ~ is_wandb_log e) d -> wandb_logs d = [].
Proof.
  induction 1 as [|e d He _ IH]; simpl; [reflexivity|]. rewrite IH.
  destruct e; try reflexivity. exfalso. apply He. exact I.
Qed.

Lemma wandb_logs_app (d1 d2 : list event) :
  wandb_logs (d1 ++ d2) = wandb_logs d1 ++ wandb_logs d2.
Proof. unfold wandb_logs. apply flat_map_app. Qed.

Lemma account_Ok_inv b loss acc s acc1 s1 :
  account b loss acc s = (Ok acc1, s1) -> acc1 = float_add acc (tensor_item loss).
Proof. unfold account. intros H. inv_run. reflexivity. Qed.

(** The loop adds up the losses, in order, onto its accumulator. *)
Lemma train_batches_sum net a bs : forall acc s acc' s',
  train_batches net a bs acc s = (Ok acc', s') ->
  exists ls, loss_seq net a bs s ls s' /\ acc' = fold_left float_add ls acc.
Proof.
  induction bs as [|b bs IH]; intros acc s acc' s' H.
  - inversion H; subst. exists []. split; [constructor | reflexivity].
  - unfold train_batches in H. simpl in H.
    apply bind_Ok_inv in H as (acc1 & s2 & Hstep & Hrest).
    unfold batch_step in Hstep. apply bind_Ok_inv in Hstep as (loss & s1 & Hfb & Hacc).
    pose proof (account_Ok_inv _ _ _ _ _ _ Hacc) as ->.
    apply IH in Hrest as (ls & Hls & ->).
    exists (tensor_item loss :: ls). split; [|reflexivity].
    econstructor; eassumption.
Qed.

Lemma train_batches_no_log net a bs acc :
  preserves (extends (fun e => ~ is_wandb_log e)) (train_batches net a bs acc).
Proof. pres ltac:(extends_leaf; tauto). Qed.

Lemma checkpoint_no_log epoch :
  preserves (extends (fun e => ~ is_wandb_log e)) (checkpoint epoch).
Proof. pres ltac:(extends_leaf; tauto). Qed.

Lemma log_epoch_Ok_inv a n_train epoch epoch_loss g s g' s' :
  log_epoch a n_train epoch epoch_loss g s = (Ok g', s') ->
  g' = g + 1 /\
  batch_size a <> 0 /\
  Z.of_nat n_train / batch_size a <> 0 /\
  trace s' = trace s ++
    [EvWandbLog (float_div epoch_loss (Z.of_nat n_train / batch_size a)) (g + 1) epoch;
     EvPbarPostfix (float_div epoch_loss (Z.of_nat n_train / batch_size a))].
Proof.
  unfold log_epoch, py_floordiv, py_truediv. intros H. inv_run.
  simpl. rewrite <- app_assoc. repeat split; assumption.
Qed.

(** C2.  An epoch that ran to its end sent exactly one entry to the tracker.
    Its loss is the sum of the losses of the batches of that epoch, added in
    order onto 0, divided by [n_train // batch_size], which is not zero; its
    step is the step counter plus one and its epoch is the epoch's index.
    The divisor is neither the number of samples nor the number of batches
    the loader yields. *)
Theorem epoch_log_is_sum_over_floor net a n_train tl epoch g s g' s' :
  run_epoch net a n_train tl epoch g s = (Ok g', s') ->
  exists s1 s2 ls d,
    net_params s1 = net_params s /\ net_grad s1 = net_grad s /\
    optimizer s1 = optimizer s /\ grad_scaler s1 = grad_scaler s /\
    loss_seq net a (batches tl) s1 ls s2 /\
    Z.of_nat n_train / batch_size a <> 0 /\
    trace s' = trace s ++ d /\
    wandb_logs d =
      [(float_div (fold_left float_add ls (float_of_Q 0)) (Z.of_nat n_train / batch_size a),
        g + 1, epoch)].
Proof.
  intros H.
  apply run_epoch_Ok_inv in H as (k1 & k2 & k3 & l & s1 & s2 & Hb & Hl & Hc).
  pose proof (preserves_run _ _ _ _ _ (train_batches_no_log net a _ _) Hb) as (db & Tb & Pb).
  pose proof (preserves_run _ _ _ _ _ (checkpoint_no_log _) Hc) as (dc & Tc & Pc).
  apply train_batches_sum in Hb as (ls & Hls & ->).
  apply log_epoch_Ok_inv in Hl as (-> & _ & Hk & Tl).
  exists (add_events [EvPbarOpen n_train (epoch + 1)]
            (set_sigint k3 (set_sigint k2 (set_net_training true (set_sigint k1 s))))),
    s1, ls,
    ([EvPbarOpen n_train (epoch + 1)] ++ db ++
     [EvWandbLog (float_div (fold_left float_add ls (float_of_Q 0))
                            (Z.of_nat n_train / batch_size a)) (g + 1) epoch;
      EvPbarPostfix (float_div (fold_left float_add ls (float_of_Q 0))
                               (Z.of_nat n_train / batch_size a))] ++ dc).
  split; [reflexivity|]. split; [reflexivity|]. split; [reflexivity|].
  split; [reflexivity|]. split; [exact Hls|]. split; [exact Hk|]. split.
  - rewrite Tc, Tl, Tb. simpl. rewrite <- !app_assoc. reflexivity.
  - rewrite !wandb_logs_app, (wandb_logs_none _ Pb), (wandb_logs_none _ Pc). reflexivity.
Qed.

End EpochLog.

(** The first epoch on the small framework: five samples in batches of two
    give three batches with losses 5, 4 and 3; the entry logged is 12 / 2. *)
Lemma epoch_log_is_sum_over_floor_witness :
  let s := @Build_state Toy.framework 0 None false
             (Some (@Build_Optimizer Toy.framework (1 # 100000)%Q (1 # 100000000)%Q O))
             None (Some false) ∅ ∅ [] None 0 [] in
  let a := train_args (Toy.args 2 2) in
  let tl := (loaders_of a Toy.training_samples Toy.testing_samples).1.2 in
  let r := run_epoch unet a 5 tl 0 0 s in
  r.1 = Ok 1 /\
  length (batches tl) = 3%nat /\
  wandb_logs (trace r.2) = [(6%Q, 1, 0)] /\
  exists s1 s2 ls d,
    net_params s1 = net_params s /\ net_grad s1 = net_grad s /\
    optimizer s1 = optimizer s /\ grad_scaler s1 = grad_scaler s /\
    loss_seq unet a (batches tl) s1 ls s2 /\
    5 / 2 <> 0 /\
    trace r.2 = trace s ++ d /\
    wandb_logs d = [(float_div (fold_left float_add ls (float_of_Q 0)) (5 / 2), 0 + 1, 0)].
Proof.
  intros s a tl r.
  assert (H1 : r.1 = Ok 1) by (vm_compute; reflexivity).
  split; [exact H1|]. split; [vm_compute; reflexivity|].
  split; [vm_compute; reflexivity|].
  exact (epoch_log_is_sum_over_floor unet a 5 tl 0 0 s 1 r.2 (run_result _ _ _ H1)).
Defined.

(** ** The channel check (lines 96-99) *)

Section ChannelCheck.
Context `{FW : Framework}.

Lemma shape_at_Ok t i c : shape_at t i = Ok c -> shape t !! i = Some c.
Proof. unfold shape_at. destruct (shape t !! i); intros H; inversion H; reflexivity. Qed.

Lemma forward_backward_checked net a b :
  preserves (extends (forward_ok net)) (forward_backward net a b).
Proof.
  unfold forward_backward. frame_apply pres_let. frame_apply pres_let.
  destruct (shape_at (image b) 1) as [c|e] eqn:E.
  - destruct (decide (c = n_channels net)) as [->|Hne].
    + apply shape_at_Ok in E.
      pres ltac:(extends_leaf; try exact I; rewrite shape_to_float32; exact E).
    + frame_apply pres_bind_raises.
      * pres ltac:(extends_leaf; exact I).
      * intros s u s1 H. inv_run. congruence.
  - frame_apply pres_bind_raises.
    + pres ltac:(extends_leaf; exact I).
    + intros s u s1 H. inv_run.
Qed.

Lemma train_net_forward_checked net a :
  preserves (extends (forward_ok net)) (train_net net a).
Proof.
  pose proof (forward_backward_checked net a) as HF.
  pres ltac:(extends_leaf; exact I).
Qed.

(** A batch with another channel count: the body of the loop raises at the
    [assert] and leaves the state as it found it. *)
Lemma batch_step_mismatch net a b acc s c :
  sigint s = None ->
  shape_at (image b) 1 = Ok c -> c <> n_channels net ->
  batch_step net a b acc s = (Raise AssertionError, s).
Proof.
  intros Hs E Hne. unfold batch_step. apply bind_Raise. unfold forward_backward.
  run_stmt_with ltac:(reflexivity).
  run_stmt_with ltac:(reflexivity).
  apply run_stmt_raise; [exact Hs|].
  unfold lift, mbind, M_bind. rewrite E. case_decide; [contradiction | reflexivity].
Qed.

Lemma for_each_raise {A B} (pre post : list A) (x : A) (body : A -> B -> M B)
    acc s acc1 s1 e s2 :
  for_each pre body acc s = (Ok acc1, s1) ->
  body x acc1 s1 = (Raise e, s2) ->
  for_each (pre ++ x :: post) body acc s = (Raise e, s2).
Proof.
  intros Hpre Hx. rewrite for_each_app. rewrite (bind_Ok _ _ _ _ _ Hpre). simpl.
  apply bind_Raise. exact Hx.
Qed.

(** An exception of the batch loop leaves the epoch. *)
Lemma run_epoch_raise net a n_train tl epoch g s e s1 :
  sigint s = None ->
  train_batches net a (batches tl) (float_of_Q 0)
    (add_events [EvPbarOpen n_train (epoch + 1)] (set_net_training true s)) = (Raise e, s1) ->
  run_epoch net a n_train tl epoch g s = (Raise e, s1).
Proof.
  intros Hs H. unfold run_epoch.
  run_stmt_with ltac:(reflexivity).
  run_stmt_with ltac:(reflexivity).
  run_stmt_with ltac:(reflexivity).
  apply bind_Raise. exact H.
Qed.

(** An exception other than [KeyboardInterrupt] and [SystemExit] that leaves
    [train_net] ends the process. *)
Lemma guarded_train_uncaught net a s e s' :
  stmt (train_net net a) s = (Raise e, s') ->
  e <> KeyboardInterrupt -> (forall c, e <> SystemExit c) ->
  run_process (guarded_train net a) s = (Uncaught e, s').
Proof.
  intros H Hk Hx. unfold run_process, guarded_train, try_except. rewrite H.
  destruct e; try reflexivity; [contradiction | exfalso; eapply Hx; reflexivity].
Qed.

End ChannelCheck.

(** A whole process over a training set with a one-channel image, in batches
    of one: the permutation puts the bad batch second; one forward pass is
    made and the process ends with the uncaught [AssertionError], without a
    tracker entry or a checkpoint. *)
Example gray_image_ends_the_process :
  let r := run_process (main (@Build_Args Toy.framework_gray 2 1 (1 # 100000)%Q None 1%Q 10%Q false))
             (@Build_state Toy.framework_gray 0 None false None None None ∅ ∅ [] None 0 []) in
  r.1 = Uncaught AssertionError /\
  List.filter (fun e => match e with EvForward _ => true | _ => false end) (trace r.2)
    = [@EvForward Toy.framework_gray ([1; 3; 224; 224], 3%Q)] /\
  wandb_logs (trace r.2) = [] /\
  files r.2 = ∅.
Proof. vm_compute. repeat split; reflexivity. Qed.

(** ** The learning rate (lines 81-82, 127-144) *)

Section LearningRate.
Context `{FW : Framework}.

Global Instance keeps_ready_frame v : Frame (keeps (optimizer_ready v)).
Proof.
  split; [split|].
  - intros s H. exact H.
  - intros s1 s2 s3 H1 H2 H. exact (H2 (H1 H)).
  - intros k s H. exact H.
Qed.

Lemma keeps_ready_emit v e : preserves (keeps (optimizer_ready v)) (emit e).
Proof. intros s H. exact H. Qed.

Lemma keeps_ready_update v f :
  (forall s, optimizer (f s) = optimizer s /\ scheduler (f s) = scheduler s) ->
  preserves (keeps (optimizer_ready v)) (update f).
Proof.
  intros E s [(o & Ho & Hlr) Hs]. destruct (E s) as [E1 E2]. split.
  - exists o. simpl. rewrite E1. split; assumption.
  - simpl. rewrite E2. exact Hs.
Qed.

Lemma keeps_ready_grad_scaler_step v :
  preserves (keeps (optimizer_ready v)) grad_scaler_step.
Proof.
  intros s [(o & Ho & Hlr) Hs]. unfold grad_scaler_step. rewrite Ho.
  destruct (grad_scaler s) as [sc|]; [|split; [exists o; split; assumption | exact Hs]].
  destruct (scaler_step _ _ _ _ _ _) as [p' ad']. split; [|exact Hs].
  eexists. split; [reflexivity | exact Hlr].
Qed.

Lemma setup_optimizer_Ok_inv a s g s' :
  setup_optimizer a s = (Ok g, s') ->
  g = 0 /\ optimizer_ready (learning_rate a) s'.
Proof.
  unfold setup_optimizer. intros H. inv_run.
  split; [reflexivity|]. split; [|reflexivity]. eexists. split; reflexivity.
Qed.

Lemma epochs_keep_ready net a n_train tl g :
  preserves (keeps (optimizer_ready (learning_rate a)))
            (for_each (range (epochs a)) (run_epoch net a n_train tl) g).
Proof.
  pres ltac:(first [ apply keeps_ready_grad_scaler_step
                   | apply keeps_ready_emit
                   | apply keeps_ready_update; intros ?; split; reflexivity ]).
Qed.

Lemma set_optimizer_lr v (o : Optimizer) :
  lr o = v -> preserves (keeps (lr_is v)) (update (set_optimizer (Some o))).
Proof. intros E s _ o' Ho'. simpl in Ho'. inversion Ho'; subst. reflexivity. Qed.

Lemma train_net_keeps_lr net a : preserves (keeps (lr_is (learning_rate a))) (train_net net a).
Proof. pres ltac:(first [ keeps_lr_leaf | apply set_optimizer_lr; reflexivity ]). Qed.

Lemma main_keeps_lr args : preserves (keeps (lr_is (args_lr args))) (main args).
Proof.
  pose proof (train_net_keeps_lr unet (train_args args)) as HT.
  pres ltac:(keeps_lr_leaf).
Qed.

(** C7.  In whatever state a run of [train_net] is cut, by its end, by an
    exception or by an interrupt at any statement, the optimizer, once it
    exists, has the learning rate the run was configured with; the same
    holds for the whole of [__main__] with the rate of the command line.
    When [train_net] returns, the optimizer exists with that rate and the
    scheduler exists as constructed: no statement ever steps it. *)
Theorem learning_rate_never_changes net a :
  (forall s, optimizer s = None ->
     forall o, optimizer (train_net net a s).2 = Some o -> lr o = learning_rate a) /\
  (forall args s, optimizer s = None ->
     forall o, optimizer (main args s).2 = Some o -> lr o = args_lr args) /\
  (forall s s', train_net net a s = (Ok tt, s') ->
     exists o, optimizer s' = Some o /\ lr o = learning_rate a /\
               scheduler s' = Some {| sched_mode := "max"; sched_patience := 2 |}).
Proof.
  split; [|split].
  - intros s Hs. apply (train_net_keeps_lr net a s). intros o Ho. congruence.
  - intros args s Hs. apply (main_keeps_lr args s). intros o Ho. congruence.
  - intros s s' H. unfold train_net, training in H. inv_run.
    match goal with
    | H1 : setup_optimizer _ _ = (Ok _, _), H2 : for_each _ _ _ _ = (Ok _, _) |- _ =>
        apply setup_optimizer_Ok_inv in H1 as [-> Hr];
        pose proof (preserves_run _ _ _ _ _ (epochs_keep_ready net a _ _ _) H2 Hr)
          as [(o & Ho & Hlr) Hsch]
    end.
    exists o. repeat split; assumption.
Qed.

End LearningRate.

(** A run on the small framework, cut by an interrupt after 40 statements,
    and the same run to its end. *)
Lemma learning_rate_never_changes_witness :
  let a := train_args (Toy.args 2 2) in
  optimizer (Toy.start (Some 40%nat)) = None /\
  option_map (@lr Toy.framework) (optimizer (train_net unet a (Toy.start (Some 40%nat))).2)
    = Some (1 # 100000)%Q /\
  (forall o, optimizer (train_net unet a (Toy.start (Some 40%nat))).2 = Some o ->
             lr o = learning_rate a) /\
  (train_net unet a (Toy.start None)).1 = Ok tt /\
  exists o, optimizer (train_net unet a (Toy.start None)).2 = Some o /\
            lr o = learning_rate a /\
            scheduler (train_net unet a (Toy.start None)).2
              = Some {| sched_mode := "max"; sched_patience := 2 |}.
Proof.
  intros a.
  assert (H0 : optimizer (Toy.start (Some 40%nat)) = None) by reflexivity.
  assert (H1 : (train_net unet a (Toy.start None)).1 = Ok tt) by (vm_compute; reflexivity).
  destruct (learning_rate_never_changes unet a) as (W1 & _ & W3).
  split; [exact H0|]. split; [vm_compute; reflexivity|]. split; [exact (W1 _ H0)|].
  split; [exact H1|].
  exact (W3 (Toy.start None) _ (run_result _ _ _ H1)).
Defined.

(** ** A training set smaller than a batch (lines 117-123) *)

Section SmallDataset.
Context `{FW : Framework}.

Lemma grad_scaler_step_run s sc o :
  grad_scaler s = Some sc -> optimizer s = Some o ->
  grad_scaler_step s =
  (Ok tt,
   set_optimizer
     (Some {| lr := lr o; weight_decay := weight_decay o;
              adam := (scaler_step sc (lr o) (weight_decay o) (adam o)
                                   (net_params s) (net_grad s)).2 |})
     (set_net_params (scaler_step sc (lr o) (weight_decay o) (adam o)
                                  (net_params s) (net_grad s)).1 s)).
Proof.
  intros Hsc Ho. unfold grad_scaler_step. rewrite Hsc, Ho.
  destruct (scaler_step _ _ _ _ _ _). reflexivity.
Qed.

Lemma forward_backward_ok net a b s :
  running s -> batch_ok net a b ->
  exists loss s', forward_backward net a b s = (Ok loss, s') /\ running s' /\
                  same_fs s s' /\ extends (fun e => ~ is_wandb_log e) s s'.
Proof.
  intros (Hs & [o Ho] & [sc Hsc]) [Hshape Hnet].
  destruct (Hnet (net_params s)) as (pred & loss & Hfwd & Hloss).
  exists loss. eexists. split; [|split; [|split]].
  - unfold forward_backward.
    run_stmt_with ltac:(reflexivity).
    run_stmt_with ltac:(reflexivity).
    run_stmt_with ltac:(unfold lift, mbind, M_bind, shape_at; rewrite Hshape;
                        rewrite decide_True by reflexivity; reflexivity).
    run_stmt_with ltac:(reflexivity).
    run_stmt_with ltac:(reflexivity).
    run_stmt_with ltac:(unfold emit, gets, lift, mbind, M_bind; simpl;
                        rewrite Hfwd; reflexivity).
    run_stmt_with ltac:(unfold lift; rewrite Hloss; reflexivity).
    run_stmt_with ltac:(reflexivity).
    run_stmt_with ltac:(unfold the, gets, update, mbind, M_bind; simpl;
                        rewrite Hsc; reflexivity).
    run_stmt_with ltac:(apply (grad_scaler_step_run _ sc o); simpl; assumption).
    run_stmt_with ltac:(unfold the, update, mbind, M_bind; simpl;
                        rewrite Hsc; reflexivity).
    reflexivity.
  - simpl. repeat split; [exact Hs | eexists; reflexivity | eexists; reflexivity].
  - split; reflexivity.
  - eexists [_]. simpl. split; [reflexivity|]. repeat constructor. simpl. tauto.
Qed.

Lemma account_ok net a b loss acc s :
  sigint s = None -> batch_ok net a b ->
  exists n, account b loss acc s =
    (Ok (float_add acc (tensor_item loss)), add_events [EvPbarUpdate n] s).
Proof.
  intros Hs [Hshape _].
  destruct (shape (image b)) as [|n l] eqn:E; [discriminate Hshape|].
  exists n. unfold account.
  run_stmt_with ltac:(reflexivity).
  run_stmt_with ltac:(unfold lift, mbind, M_bind, shape_at;
                      rewrite shape_to_float32, E; reflexivity).
  reflexivity.
Qed.

Lemma train_batches_ok net a bs : forall acc s,
  running s -> Forall (batch_ok net a) bs ->
  exists acc' s', train_batches net a bs acc s = (Ok acc', s') /\ running s' /\
                  same_fs s s' /\ extends (fun e => ~ is_wandb_log e) s s'.
Proof.
  induction bs as [|b bs IH]; intros acc s Hrun Hok.
  - exists acc, s. repeat split; try reflexivity; apply Hrun.
  - inversion Hok as [|? ? Hb Hbs]; subst.
    destruct (forward_backward_ok net a b s Hrun Hb) as (loss & s1 & Hfb & Hrun1 & Hfs1 & Hex1).
    destruct (account_ok net a b loss acc s1 (proj1 Hrun1) Hb) as (n & Hacc).
    destruct (IH (float_add acc (tensor_item loss)) (add_events [EvPbarUpdate n] s1))
      as (acc' & s' & Hrest & Hrun' & Hfs' & Hex'); [exact Hrun1 | exact Hbs |].
    exists acc', s'. split; [|split; [exact Hrun'|split]].
    + unfold train_batches. simpl. unfold batch_step.
      erewrite bind_Ok; [exact Hrest|]. erewrite bind_Ok; [exact Hacc | exact Hfb].
    + etransitivity; [exact Hfs1|]. exact Hfs'.
    + etransitivity; [exact Hex1|]. etransitivity; [|exact Hex'].
      exists [EvPbarUpdate n]. split; [reflexivity|]. repeat constructor. simpl. tauto.
Qed.

Lemma range_pos n : 1 <= n -> exists rest, range n = 0 :: rest.
Proof.
  intros H. unfold range. destruct (Z.to_nat n) as [|k] eqn:E; [lia|].
  simpl. eexists. reflexivity.
Qed.

Lemma log_epoch_zero_div a n_train epoch epoch_loss g s :
  sigint s = None ->
  0 < batch_size a -> Z.of_nat n_train < batch_size a ->
  log_epoch a n_train epoch epoch_loss g s = (Raise ZeroDivisionError, s).
Proof.
  intros Hs HB Hn. unfold log_epoch.
  run_stmt_with ltac:(reflexivity).
  apply run_stmt_raise; [exact Hs|].
  unfold py_floordiv, py_truediv.
  rewrite decide_False by lia. unfold mbind, M_bind, mret, M_ret.
  rewrite Z.div_small by lia. rewrite decide_True by reflexivity. reflexivity.
Qed.

(** The first and only epoch: the batches go through, the division does not. *)
Lemma run_epoch_zero_div net a n_train tl epoch g s :
  running s ->
  0 < batch_size a -> Z.of_nat n_train < batch_size a ->
  Forall (batch_ok net a) (batches tl) ->
  exists s', run_epoch net a n_train tl epoch g s = (Raise ZeroDivisionError, s') /\
             same_fs s s' /\ extends (fun e => ~ is_wandb_log e) s s'.
Proof.
  intros Hrun HB Hn Hok.
  destruct (train_batches_ok net a (batches tl) (float_of_Q 0)
              (add_events [EvPbarOpen n_train (epoch + 1)] (set_net_training true s)))
    as (l & s1 & Hb & Hrun1 & Hfs & Hex); [exact Hrun | exact Hok |].
  destruct Hrun as (Hs & _). exists s1. split; [|split].
  - unfold run_epoch.
    run_stmt_with ltac:(reflexivity).
    run_stmt_with ltac:(reflexivity).
    run_stmt_with ltac:(reflexivity).
    erewrite bind_Ok by exact Hb.
    apply bind_Raise. apply log_epoch_zero_div; [apply Hrun1 | exact HB | exact Hn].
  - exact Hfs.
  - etransitivity; [|exact Hex].
    exists [EvPbarOpen n_train (epoch + 1)]. split; [reflexivity|].
    repeat constructor. simpl. tauto.
Qed.

Lemma setup_optimizer_run a s :
  sigint s = None ->
  setup_optimizer a s =
  (Ok 0, set_grad_scaler (Some (scaler_init (amp a)))
           (set_scheduler (Some {| sched_mode := "max"; sched_patience := 2 |})
              (set_optimizer (Some {| lr := learning_rate a;
                                      weight_decay := float_of_Q (1 # 100000000);
                                      adam := adam_init (net_params s) |}) s))).
Proof.
  intros Hs. unfold setup_optimizer.
  run_stmt_with ltac:(reflexivity).
  run_stmt_with ltac:(reflexivity).
  run_stmt_with ltac:(reflexivity).
  run_stmt_with ltac:(reflexivity).
  rewrite stmt_quiet by (simpl; exact Hs). reflexivity.
Qed.

Lemma training_zero_div net a d1 d2 s :
  sigint s = None ->
  Z.of_nat (length d1) < batch_size a ->
  1 <= epochs a ->
  Forall (batch_ok net a) (batches (loaders_of a d1 d2).1.2) ->
  exists s', training net a d1 d2 s = (Raise ZeroDivisionError, s') /\
             same_fs s s' /\ extends (fun e => ~ is_wandb_log e) s s'.
Proof.
  intros Hs Hn He Hok.
  assert (HB : 0 < batch_size a) by lia.
  destruct (range_pos _ He) as [rest Hrange].
  set (s0 := set_grad_scaler (Some (scaler_init (amp a)))
               (set_scheduler (Some {| sched_mode := "max"; sched_patience := 2 |})
                  (set_optimizer (Some {| lr := learning_rate a;
                                          weight_decay := float_of_Q (1 # 100000000);
                                          adam := adam_init (net_params s) |})
                     (add_events [EvWandbInit; EvWandbConfig a;
                                  EvLogging (MsgStartingTraining a (length d1) (length d2))]
                        (after_splits d1 d2 s))))).
  destruct (run_epoch_zero_div net a (length d1) (loaders_of a d1 d2).1.2 0 0 s0)
    as (s' & Hrun & Hfs & Hex);
    [repeat split; [exact Hs | eexists; reflexivity | eexists; reflexivity]
    | exact HB | exact Hn | exact Hok |].
  exists s'. split; [|split].
  - unfold training.
    erewrite bind_Ok;
      [| rewrite make_loaders_run by exact Hs; rewrite decide_False by lia; reflexivity].
    unfold loaders_of at 1. cbv beta iota.
    run_stmt_with ltac:(reflexivity).
    run_stmt_with ltac:(reflexivity).
    run_stmt_with ltac:(reflexivity).
    erewrite bind_Ok;
      [| rewrite setup_optimizer_run by (simpl; exact Hs); simpl;
         rewrite <- !app_assoc; reflexivity].
    apply bind_Raise. rewrite Hrange. simpl. apply bind_Raise. exact Hrun.
  - destruct Hfs as [F D]. split; [rewrite F | rewrite D]; reflexivity.
  - etransitivity; [|exact Hex].
    eexists [_; _; _]. split; [reflexivity|]. repeat constructor; simpl; tauto.
Qed.

Lemma make_dataset_quiet dir_img dir_mask scale s r s1 :
  sigint s = None ->
  make_dataset dir_img dir_mask scale s = (r, s1) ->
  sigint s1 = None /\ same_fs s s1 /\ extends (fun e => ~ is_wandb_log e) s s1.
Proof.
  intros Hs H. rewrite (make_dataset_run _ _ _ _ Hs) in H.
  assert (G : forall d, Forall (fun e : event => ~ is_wandb_log e) d ->
              s1 = add_events d s ->
              sigint s1 = None /\ same_fs s s1 /\ extends (fun e => ~ is_wandb_log e) s s1).
  { intros d Hd ->. split; [exact Hs|]. split; [split; reflexivity|].
    exists d. split; [reflexivity | exact Hd]. }
  destruct (CarvanaDataset_init dir_img dir_mask scale) as [ds|e].
  - inversion H; subst. eapply G; [|reflexivity]. repeat constructor. simpl. tauto.
  - case_bool_decide; inversion H; subst;
      (eapply G; [|reflexivity]); repeat constructor; simpl; tauto.
Qed.

(** C9.  Take a run in which no interrupt is pending, both datasets get
    built, the training set is shorter than the batch size, at least one
    epoch is asked for, and the batches of the training loader are ones on
    which the step goes through.  Then [train_net] raises
    [ZeroDivisionError]: the first epoch's batches are processed and the
    division by [n_train // batch_size = 0] in the tracker entry fails.
    Nothing catches it, so the process ends with it; no tracker entry was
    sent and no file or directory was written. *)
Theorem short_training_set_divides_by_zero net a s d1 s1 d2 s2 :
  sigint s = None ->
  make_dataset dir_img_training dir_mask_training (img_scale a) s = (Ok d1, s1) ->
  make_dataset dir_img_testing dir_mask_testing (img_scale a) s1 = (Ok d2, s2) ->
  Z.of_nat (length d1) < batch_size a ->
  1 <= epochs a ->
  Forall (batch_ok net a) (batches (loaders_of a d1 d2).1.2) ->
  Z.of_nat (length d1) / batch_size a = 0 /\
  exists s',
    train_net net a s = (Raise ZeroDivisionError, s') /\
    run_process (guarded_train net a) s = (Uncaught ZeroDivisionError, s') /\
    wandb_logs (trace s') = wandb_logs (trace s) /\
    files s' = files s /\ dirs s' = dirs s.
Proof.
  intros Hs H1 H2 Hn He Hok. split; [apply Z.div_small; lia|].
  destruct (make_dataset_quiet _ _ _ _ _ _ Hs H1) as (Hs1 & Hfs1 & Hex1).
  destruct (make_dataset_quiet _ _ _ _ _ _ Hs1 H2) as (Hs2 & Hfs2 & Hex2).
  destruct (training_zero_div net a d1 d2 s2 Hs2 Hn He Hok) as (s' & Hrun & Hfs & Hex).
  assert (HT : train_net net a s = (Raise ZeroDivisionError, s')).
  { unfold train_net. erewrite bind_Ok by exact H1. erewrite bind_Ok by exact H2. exact Hrun. }
  exists s'. split; [exact HT|]. split.
  - apply guarded_train_uncaught; [|discriminate|discriminate].
    rewrite stmt_quiet by exact Hs. exact HT.
  - assert (Hfs' : same_fs s s') by (etransitivity; [exact Hfs1|]; etransitivity; eassumption).
    assert (Hex' : extends (fun e => ~ is_wandb_log e) s s')
      by (etransitivity; [exact Hex1|]; etransitivity; eassumption).
    destruct Hfs' as [F D]. destruct Hex' as (d & Td & Pd).
    rewrite Td, wandb_logs_app, (wandb_logs_none _ Pd), app_nil_r.
    repeat split; assumption.
Qed.

End SmallDataset.

(** Five training samples and a batch size of seven on the small framework. *)
Lemma short_training_set_divides_by_zero_witness :
  let a := train_args (Toy.args 2 7) in
  let s := Toy.start None in
  sigint s = None /\
  5 < batch_size a /\ 1 <= epochs a /\
  5 / batch_size a = 0 /\
  exists s',
    train_net unet a s = (Raise ZeroDivisionError, s') /\
    run_process (guarded_train unet a) s = (Uncaught ZeroDivisionError, s') /\
    wandb_logs (trace s') = wandb_logs (trace s) /\
    files s' = files s /\ dirs s' = dirs s.
Proof.
  intros a s.
  assert (Hn : Z.of_nat (length Toy.training_samples) < batch_size a) by (vm_compute; reflexivity).
  assert (He : 1 <= epochs a) by (vm_compute; discriminate).
  split; [reflexivity|]. split; [exact Hn|]. split; [exact He|].
  apply (short_training_set_divides_by_zero unet a s
           Toy.training_samples
           (make_dataset dir_img_training dir_mask_training (img_scale a) s).2
           Toy.testing_samples
           (make_dataset dir_img_testing dir_mask_testing (img_scale a)
              (make_dataset dir_img_training dir_mask_training (img_scale a) s).2).2).
  - reflexivity.
  - apply run_result. vm_compute. reflexivity.
  - apply run_result. vm_compute. reflexivity.
  - exact Hn.
  - exact He.
  - vm_compute. repeat constructor; intros p; eexists _, _; split; reflexivity.
Defined.

(** * Whole runs *)

(** ** The trace of an epoch *)

Section EpochTrace.
Context `{FW : Framework}.

Lemma the_Ok_inv {A} (f : state -> option A) s a s' :
  the f s = (Ok a, s') -> f s = Some a /\ s' = s.
Proof. unfold the. destruct (f s); intros H; inversion H; subst. split; reflexivity. Qed.

Lemma grad_scaler_step_frame s r s' :
  grad_scaler_step s = (r, s') ->
  trace s' = trace s /\ files s' = files s /\ dirs s' = dirs s.
Proof.
  unfold grad_scaler_step. destruct (grad_scaler s), (optimizer s);
    try (intros H; inversion H; subst; repeat split; reflexivity).
  destruct (scaler_step _ _ _ _ _ _). intros H; inversion H; subst. repeat split; reflexivity.
Qed.

Ltac inv_the :=
  repeat match goal with
  | H : the _ _ = (Ok _, _) |- _ => apply the_Ok_inv in H as [? ->]
  end.

(** One batch that went through leaves one forward pass, on its converted
    images, and one progress update. *)
Lemma batch_step_trace net a b acc s acc' s' :
  batch_step net a b acc s = (Ok acc', s') ->
  (exists n, trace s' = trace s ++ [EvForward (to_float32 (image b)); EvPbarUpdate n]) /\
  same_fs s s'.
Proof.
  unfold batch_step, forward_backward, account. intros H. inv_run. inv_the.
  match goal with
  | H : grad_scaler_step _ = _ |- _ => apply grad_scaler_step_frame in H as (T & F & D)
  end.
  unfold same_fs. simpl in *. rewrite T, F, D. simpl. split.
  - eexists. rewrite <- app_assoc. reflexivity.
  - split; reflexivity.
Qed.

Lemma forward_images_app (d1 d2 : list event) :
  forward_images (d1 ++ d2) = forward_images d1 ++ forward_images d2.
Proof. unfold forward_images. apply flat_map_app. Qed.

Lemma save_names_app (d1 d2 : list event) :
  save_names (d1 ++ d2) = save_names d1 ++ save_names d2.
Proof. unfold save_names. apply flat_map_app. Qed.

Lemma log_steps_app (d1 d2 : list event) :
  log_steps (d1 ++ d2) = log_steps d1 ++ log_steps d2.
Proof. unfold log_steps. rewrite wandb_logs_app. apply map_app. Qed.

Lemma writes_refl s s' : files s' = files s -> writes [] s s'.
Proof.
  intros E. split.
  - intros f Hf. inversion Hf.
  - intros f _. rewrite E. reflexivity.
Qed.

Lemma writes_app n1 n2 s1 s2 s3 :
  writes n1 s1 s2 -> writes n2 s2 s3 -> writes (n1 ++ n2) s1 s3.
Proof.
  intros [A1 B1] [A2 B2]. split.
  - intros f Hf. destruct (decide (f ∈ n2)) as [H2|H2]; [apply A2; exact H2|].
    rewrite B2 by exact H2. apply A1. apply elem_of_app in Hf as [Hf|Hf]; [exact Hf | contradiction].
  - intros f Hf. rewrite not_elem_of_app in Hf. destruct Hf as [H1 H2].
    rewrite B2 by exact H2. apply B1. exact H1.
Qed.

(** A pass over the batches that went through: the forward passes are those
    of the batches, in order; nothing is logged to the tracker or saved. *)
Lemma train_batches_trace net a bs : forall acc s acc' s',
  train_batches net a bs acc s = (Ok acc', s') ->
  same_fs s s' /\
  exists d, trace s' = trace s ++ d /\
            forward_images d = device_images bs /\
            wandb_logs d = [] /\ save_names d = [].
Proof.
  induction bs as [|b bs IH]; intros acc s acc' s' H.
  - inversion H; subst. split; [split; reflexivity|].
    exists []. rewrite app_nil_r. repeat split; reflexivity.
  - unfold train_batches in H. simpl in H.
    apply bind_Ok_inv in H as (acc1 & s1 & Hstep & Hrest).
    apply batch_step_trace in Hstep as ([n T1] & [F1 D1]).
    apply IH in Hrest as ([F2 D2] & d & T2 & Hf & Hw & Hs).
    split; [split; congruence|].
    exists ([EvForward (to_float32 (image b)); EvPbarUpdate n] ++ d).
    rewrite T2, T1, <- app_assoc. split; [reflexivity|].
    rewrite forward_images_app, wandb_logs_app, save_names_app, Hf, Hw, Hs.
    repeat split; reflexivity.
Qed.

(** What one completed epoch leaves behind. *)
Lemma run_epoch_effects net a n_train tl epoch g s g' s' :
  run_epoch net a n_train tl epoch g s = (Ok g', s') ->
  g' = g + 1 /\
  writes (if checkpointed epoch then [checkpoint_file epoch] else []) s s' /\
  exists d, trace s' = trace s ++ d /\
            forward_images d = device_images (batches tl) /\
            log_steps d = [(g + 1, epoch)] /\
            save_names d = if checkpointed epoch then [checkpoint_file epoch] else [].
Proof.
  intros H.
  apply run_epoch_Ok_inv in H as (k1 & k2 & k3 & l & s1 & s2 & Hb & Hl & Hc).
  apply train_batches_trace in Hb as ([Fb Db] & db & Tb & Hfb & Hwb & Hsb).
  pose proof (preserves_run _ _ _ _ _ (log_epoch_same_fs a _ _ _ _) Hl) as [Fl Dl].
  apply log_epoch_Ok_inv in Hl as (-> & _ & _ & Tl).
  apply checkpoint_Ok_inv in Hc as [_ Hc].
  simpl in Fb, Db, Tb. unfold checkpointed. split; [reflexivity|].
  case_decide as He.
  - rewrite bool_decide_true by exact He. destruct Hc as (Fc & Dc & Tc). split.
    + split.
      * intros f Hf. apply list_elem_of_singleton in Hf as ->.
        rewrite Fc, lookup_insert_eq. eexists. reflexivity.
      * intros f Hf. rewrite list_elem_of_singleton in Hf.
        rewrite Fc, lookup_insert_ne by congruence. congruence.
    + eexists. rewrite Tc, Tl, Tb, <- !app_assoc. split; [reflexivity|].
      unfold log_steps.
      rewrite !forward_images_app, !wandb_logs_app, !save_names_app, Hfb, Hwb, Hsb.
      simpl. rewrite app_nil_r. repeat split; reflexivity.
  - rewrite bool_decide_false by exact He. destruct Hc as (Fc & Dc & Tc). split.
    + apply writes_refl. congruence.
    + eexists. rewrite Tc, Tl, Tb, <- !app_assoc. split; [reflexivity|].
      unfold log_steps.
      rewrite !forward_images_app, !wandb_logs_app, !save_names_app, Hfb, Hwb, Hsb.
      simpl. rewrite app_nil_r. repeat split; reflexivity.
Qed.

End EpochTrace.

(** ** The trace of a completed run *)

Section RunTrace.
Context `{FW : Framework}.

Lemma plain_none (d : list event) :
  Forall is_plain d -> forward_images d = [] /\ wandb_logs d = [] /\ save_names d = [].
Proof.
  induction 1 as [|e d He _ (IH1 & IH2 & IH3)]; simpl; [repeat split; reflexivity|].
  rewrite IH1, IH2, IH3. destruct e; simpl in He; try contradiction; repeat split; reflexivity.
Qed.

Lemma epochs_effects net a n_train tl : forall es g s g' s',
  for_each es (run_epoch net a n_train tl) g s = (Ok g', s') ->
  g' = g + Z.of_nat (length es) /\
  writes (map checkpoint_file (List.filter checkpointed es)) s s' /\
  exists d, trace s' = trace s ++ d /\
            forward_images d = flat_map (fun _ => device_images (batches tl)) es /\
            log_steps d = steps_from g es /\
            save_names d = map checkpoint_file (List.filter checkpointed es).
Proof.
  induction es as [|e es IH]; intros g s g' s' H.
  - inversion H; subst. split; [simpl; lia|]. split; [apply writes_refl; reflexivity|].
    exists []. rewrite app_nil_r. repeat split; reflexivity.
  - simpl in H. apply bind_Ok_inv in H as (g1 & s1 & He & Hrest).
    apply run_epoch_effects in He as (-> & W1 & d1 & T1 & F1 & L1 & S1).
    apply IH in Hrest as (-> & W2 & d2 & T2 & F2 & L2 & S2).
    split; [simpl length; lia|]. split.
    + replace (map checkpoint_file (List.filter checkpointed (e :: es)))
        with ((if checkpointed e then [checkpoint_file e] else []) ++
              map checkpoint_file (List.filter checkpointed es))
        by (simpl; destruct (checkpointed e); reflexivity).
      eapply writes_app; eassumption.
    + exists (d1 ++ d2). rewrite T2, T1, <- app_assoc. split; [reflexivity|].
      rewrite forward_images_app, log_steps_app, save_names_app, F1, F2, L1, L2, S1, S2.
      simpl. destruct (checkpointed e); repeat split; reflexivity.
Qed.

Lemma steps_from_seq k n :
  steps_from (Z.of_nat k) (map Z.of_nat (seq k n)) =
  map (fun e => (e + 1, e)) (map Z.of_nat (seq k n)).
Proof.
  revert k. induction n as [|n IH]; intros k; simpl; [reflexivity|].
  f_equal. replace (Z.of_nat k + 1) with (Z.of_nat (S k)) by lia. apply IH.
Qed.

Lemma steps_from_range n : steps_from 0 (range n) = map (fun e => (e + 1, e)) (range n).
Proof. apply (steps_from_seq 0). Qed.

Lemma make_loaders_plain a d1 d2 : preserves (extends is_plain) (make_loaders a d1 d2).
Proof. pres ltac:(extends_leaf; exact I). Qed.

Lemma make_loaders_same_fs a d1 d2 : preserves same_fs (make_loaders a d1 d2).
Proof. pres same_fs_leaf. Qed.

Lemma setup_optimizer_plain a : preserves (extends is_plain) (setup_optimizer a).
Proof. pres ltac:(extends_leaf; exact I). Qed.

Lemma setup_optimizer_same_fs a : preserves same_fs (setup_optimizer a).
Proof. pres same_fs_leaf. Qed.

(** What a completed [train_net] leaves behind, once the datasets exist. *)
Lemma training_effects net a d1 d2 s s' :
  training net a d1 d2 s = (Ok tt, s') ->
  0 < batch_size a /\
  writes (map checkpoint_file (List.filter checkpointed (range (epochs a)))) s s' /\
  exists d, trace s' = trace s ++ d /\
            forward_images d =
              flat_map (fun _ => device_images (batches (loaders_of a d1 d2).1.2))
                       (range (epochs a)) /\
            log_steps d = map (fun e => (e + 1, e)) (range (epochs a)) /\
            save_names d = map checkpoint_file (List.filter checkpointed (range (epochs a))).
Proof.
  unfold training. intros H. inv_run.
  match goal with
  | H1 : make_loaders _ _ _ _ = (Ok _, ?x), H2 : setup_optimizer _ ?y = (Ok _, ?z),
    H3 : for_each _ _ _ _ = (Ok _, _) |- _ =>
      pose proof (preserves_run _ _ _ _ _ (make_loaders_plain a d1 d2) H1) as (ev0 & T0 & P0);
      pose proof (preserves_run _ _ _ _ _ (make_loaders_same_fs a d1 d2) H1) as [F0 D0];
      apply make_loaders_Ok_inv in H1 as [E HB];
      pose proof (preserves_run _ _ _ _ _ (setup_optimizer_plain a) H2) as (ev1 & T1 & P1);
      pose proof (preserves_run _ _ _ _ _ (setup_optimizer_same_fs a) H2) as [F1 D1];
      apply setup_optimizer_Ok_inv in H2 as [-> _];
      apply epochs_effects in H3 as (_ & [W1 W2] & ev & T & Hf & Hl & Hs)
  end.
  unfold loaders_of in E. inversion E; subst. clear E.
  simpl in T1, F1, D1.
  destruct (plain_none _ P0) as (A0 & B0 & C0). destruct (plain_none _ P1) as (A1 & B1 & C1).
  split; [exact HB|]. split.
  - split.
    + exact W1.
    + intros f Hf'. rewrite (W2 f Hf'). congruence.
  - eexists. rewrite T, T1, T0, <- !app_assoc. split; [reflexivity|].
    unfold log_steps in *.
    rewrite !forward_images_app, !wandb_logs_app, !save_names_app, !map_app.
    rewrite A0, B0, C0, A1, B1, C1, Hf, Hl, Hs, steps_from_range. simpl.
    repeat split; reflexivity.
Qed.

End RunTrace.

Section RunTheorems.
Context `{FW : Framework}.

Lemma make_dataset_plain dir_img dir_mask scale :
  preserves (extends is_plain) (make_dataset dir_img dir_mask scale).
Proof. pres ltac:(extends_leaf; exact I). Qed.

Lemma make_dataset_same_fs dir_img dir_mask scale :
  preserves same_fs (make_dataset dir_img dir_mask scale).
Proof. pres same_fs_leaf. Qed.

Lemma train_net_effects net a s s' :
  train_net net a s = (Ok tt, s') ->
  exists d1 d2 s1 s2,
    make_dataset dir_img_training dir_mask_training (img_scale a) s = (Ok d1, s1) /\
    make_dataset dir_img_testing dir_mask_testing (img_scale a) s1 = (Ok d2, s2) /\
    writes (map checkpoint_file (List.filter checkpointed (range (epochs a)))) s s' /\
    exists d, trace s' = trace s ++ d /\
              forward_images d =
                flat_map (fun _ => device_images (batches (loaders_of a d1 d2).1.2))
                         (range (epochs a)) /\
              log_steps d = map (fun e => (e + 1, e)) (range (epochs a)) /\
              save_names d = map checkpoint_file (List.filter checkpointed (range (epochs a))).
Proof.
  unfold train_net. intros H.
  apply bind_Ok_inv in H as (d1 & s1 & H1 & H).
  apply bind_Ok_inv in H as (d2 & s2 & H2 & H).
  exists d1, d2, s1, s2. split; [exact H1|]. split; [exact H2|].
  pose proof (preserves_run _ _ _ _ _ (make_dataset_plain _ _ _) H1) as (e1 & T1 & P1).
  pose proof (preserves_run _ _ _ _ _ (make_dataset_same_fs _ _ _) H1) as [F1 D1].
  pose proof (preserves_run _ _ _ _ _ (make_dataset_plain _ _ _) H2) as (e2 & T2 & P2).
  pose proof (preserves_run _ _ _ _ _ (make_dataset_same_fs _ _ _) H2) as [F2 D2].
  apply training_effects in H as (_ & [W1 W2] & d & T & Hf & Hl & Hs).
  destruct (plain_none _ P1) as (A1 & B1 & C1). destruct (plain_none _ P2) as (A2 & B2 & C2).
  split.
  - split; [exact W1|]. intros f Hf'. rewrite (W2 f Hf'). congruence.
  - eexists. rewrite T, T2, T1, <- !app_assoc. split; [reflexivity|].
    unfold log_steps in *.
    rewrite !forward_images_app, !wandb_logs_app, !save_names_app, !map_app.
    rewrite A1, B1, C1, A2, B2, C2, Hf, Hl, Hs. repeat split; reflexivity.
Qed.

(** X1.  A run of [train_net] that returns saved, in this order and each
    once, the checkpoint files of the even epoch indices below [epochs]
    (the names with 1, 3, 5, ...), and nothing else; afterwards each of
    these files exists and every other file is as it was before the run. *)
Theorem completed_run_checkpoints net a s s' :
  train_net net a s = (Ok tt, s') ->
  exists d,
    trace s' = trace s ++ d /\
    save_names d = map checkpoint_file (List.filter checkpointed (range (epochs a))) /\
    (forall e, 0 <= e < epochs a -> e `mod` 2 = 0 -> is_Some (files s' !! checkpoint_file e)) /\
    (forall f, (forall e, 0 <= e < epochs a -> e `mod` 2 = 0 -> f <> checkpoint_file e) ->
               files s' !! f = files s !! f).
Proof.
  intros H. apply train_net_effects in H
    as (d1 & d2 & s1 & s2 & _ & _ & [W1 W2] & d & T & _ & _ & Hs).
  assert (Hin : forall f, f ∈ map checkpoint_file (List.filter checkpointed (range (epochs a)))
                  <-> exists e, (0 <= e < epochs a) /\ e `mod` 2 = 0 /\ f = checkpoint_file e).
  { intros f. rewrite list_elem_of_In, in_map_iff. split.
    - intros (e & <- & He). apply filter_In in He as [He Hc].
      unfold range in He. apply in_map_iff in He as (k & <- & Hk). apply in_seq in Hk.
      exists (Z.of_nat k). unfold checkpointed in Hc. apply bool_decide_eq_true in Hc.
      repeat split; [lia | lia | exact Hc].
    - intros (e & He & Hc & ->). exists e. split; [reflexivity|].
      apply filter_In. split.
      + unfold range. apply in_map_iff. exists (Z.to_nat e). split; [lia|].
        apply in_seq. lia.
      + unfold checkpointed. apply bool_decide_eq_true. exact Hc. }
  exists d. split; [exact T|]. split; [exact Hs|]. split.
  - intros e He Hc. apply W1. apply Hin. exists e.
    split; [exact He | split; [exact Hc | reflexivity]].
  - intros f Hf. apply W2. intros Hf'. apply Hin in Hf' as (e & He & Hc & ->).
    exact (Hf e He Hc eq_refl).
Qed.

(** X2.  A run of [train_net] that returns sent one entry per epoch to the
    tracker, in order: the entry of the epoch with index [e] has step
    [e + 1].  The step counter advances once per epoch, not once per batch. *)
Theorem completed_run_tracker_steps net a s s' :
  train_net net a s = (Ok tt, s') ->
  exists d,
    trace s' = trace s ++ d /\
    log_steps d = map (fun e => (e + 1, e)) (range (epochs a)) /\
    length (wandb_logs d) = Z.to_nat (epochs a).
Proof.
  intros H. apply train_net_effects in H
    as (d1 & d2 & s1 & s2 & _ & _ & _ & d & T & _ & Hl & _).
  exists d. split; [exact T|]. split; [exact Hl|].
  apply (f_equal length) in Hl. unfold log_steps, range in Hl.
  rewrite !length_map, length_seq in Hl. exact Hl.
Qed.

(** X3.  In a run of [train_net] that returns, the network was called in
    every epoch on the batches of the training loader, once each and in the
    same order every epoch, and on nothing else: the loader over the testing
    dataset is built and never iterated. *)
Theorem completed_run_forward_passes net a s s' :
  train_net net a s = (Ok tt, s') ->
  exists d1 d2 s1 s2 d,
    make_dataset dir_img_training dir_mask_training (img_scale a) s = (Ok d1, s1) /\
    make_dataset dir_img_testing dir_mask_testing (img_scale a) s1 = (Ok d2, s2) /\
    trace s' = trace s ++ d /\
    forward_images d =
      flat_map (fun _ => device_images (batches (loaders_of a d1 d2).1.2)) (range (epochs a)) /\
    Permutation (subset_items (dl_subset (loaders_of a d1 d2).1.2)) d1.
Proof.
  intros H. apply train_net_effects in H
    as (d1 & d2 & s1 & s2 & H1 & H2 & _ & d & T & Hf & _ & _).
  exists d1, d2, s1, s2, d. repeat split; try assumption.
  apply subset_items_perm, randperm_perm.
Qed.

End RunTheorems.

(** Three epochs on the small framework: checkpoints after the first and the
    third. *)
Lemma completed_run_checkpoints_witness :
  let a := train_args (Toy.args 3 2) in
  let s := Toy.start None in
  let r := train_net unet a s in
  r.1 = Ok tt /\
  save_names (trace r.2) = ["checkpoints/checkpoint_epoch_224x224_1.pth";
                            "checkpoints/checkpoint_epoch_224x224_3.pth"] /\
  exists d,
    trace r.2 = trace s ++ d /\
    save_names d = map checkpoint_file (List.filter checkpointed (range (epochs a))) /\
    (forall e, 0 <= e < epochs a -> e `mod` 2 = 0 -> is_Some (files r.2 !! checkpoint_file e)) /\
    (forall f, (forall e, 0 <= e < epochs a -> e `mod` 2 = 0 -> f <> checkpoint_file e) ->
               files r.2 !! f = files s !! f).
Proof.
  intros a s r.
  assert (H1 : r.1 = Ok tt) by (vm_compute; reflexivity).
  split; [exact H1|]. split; [vm_compute; reflexivity|].
  exact (completed_run_checkpoints unet a s r.2 (run_result _ _ _ H1)).
Defined.

(** The same run: three tracker entries, with steps 1, 2, 3 for the epochs
    0, 1, 2. *)
Lemma completed_run_tracker_steps_witness :
  let a := train_args (Toy.args 3 2) in
  let s := Toy.start None in
  let r := train_net unet a s in
  r.1 = Ok tt /\
  log_steps (trace r.2) = [(1, 0); (2, 1); (3, 2)] /\
  exists d,
    trace r.2 = trace s ++ d /\
    log_steps d = map (fun e => (e + 1, e)) (range (epochs a)) /\
    length (wandb_logs d) = Z.to_nat (epochs a).
Proof.
  intros a s r.
  assert (H1 : r.1 = Ok tt) by (vm_compute; reflexivity).
  split; [exact H1|]. split; [vm_compute; reflexivity|].
  exact (completed_run_tracker_steps unet a s r.2 (run_result _ _ _ H1)).
Defined.

(** The same run: nine forward passes, three per epoch, on batches of the
    five training samples. *)
Lemma completed_run_forward_passes_witness :
  let a := train_args (Toy.args 3 2) in
  let s := Toy.start None in
  let r := train_net unet a s in
  r.1 = Ok tt /\
  length (forward_images (trace r.2)) = 9%nat /\
  exists d1 d2 s1 s2 d,
    make_dataset dir_img_training dir_mask_training (img_scale a) s = (Ok d1, s1) /\
    make_dataset dir_img_testing dir_mask_testing (img_scale a) s1 = (Ok d2, s2) /\
    trace r.2 = trace s ++ d /\
    forward_images d =
      flat_map (fun _ => device_images (batches (loaders_of a d1 d2).1.2)) (range (epochs a)) /\
    Permutation (subset_items (dl_subset (loaders_of a d1 d2).1.2)) d1.
Proof.
  intros a s r.
  assert (H1 : r.1 = Ok tt) by (vm_compute; reflexivity).
  split; [exact H1|]. split; [vm_compute; reflexivity|].
  exact (completed_run_forward_passes unet a s r.2 (run_result _ _ _ H1)).
Defined.

(** ** The channel check through the whole run (lines 88-99, 190-202) *)

Section ChannelCheckRun.
Context `{FW : Framework}.

(** Without a pending interrupt and with a positive batch size, [training]
    reaches the epoch loop. *)
Lemma training_run net a d1 d2 s :
  sigint s = None -> 0 < batch_size a ->
  training net a d1 d2 s =
  (for_each (range (epochs a)) (run_epoch net a (length d1) (loaders_of a d1 d2).1.2) 0;;
   mret tt) (epochs_start a d1 d2 s).
Proof.
  intros Hs HB. unfold training.
  erewrite bind_Ok;
    [| rewrite make_loaders_run by exact Hs; rewrite decide_False by lia; reflexivity].
  unfold loaders_of at 1. cbv beta iota.
  run_stmt_with ltac:(reflexivity).
  run_stmt_with ltac:(reflexivity).
  run_stmt_with ltac:(reflexivity).
  erewrite bind_Ok;
    [| rewrite setup_optimizer_run by (simpl; exact Hs); simpl;
       rewrite <- !app_assoc; reflexivity].
  reflexivity.
Qed.

(** The batches before the bad one go through; the bad one stops the pass. *)
Lemma train_batches_mismatch net a pre b post c acc s :
  running s -> Forall (batch_ok net a) pre ->
  shape_at (image b) 1 = Ok c -> c <> n_channels net ->
  exists s1, train_batches net a (pre ++ b :: post) acc s = (Raise AssertionError, s1) /\
             same_fs s s1 /\
             exists d, trace s1 = trace s ++ d /\
                       forward_images d = device_images pre /\
                       wandb_logs d = [] /\ save_names d = [].
Proof.
  intros Hrun Hok E Hne.
  destruct (train_batches_ok net a pre acc s Hrun Hok) as (acc1 & s1 & Hpre & Hrun1 & _ & _).
  exists s1. split.
  - unfold train_batches. apply (for_each_raise pre post b _ acc s acc1 s1); [exact Hpre|].
    apply (batch_step_mismatch net a b acc1 s1 c (proj1 Hrun1) E Hne).
  - apply train_batches_trace in Hpre. exact Hpre.
Qed.

(** C1.  In any pass over the batches, when a batch is reached whose images
    have a channel count other than the network's and no interrupt is
    pending, the loop raises [AssertionError] and the state is the one the
    previous batch left: nothing was computed for this batch or any later
    one.  The exception leaves the epoch, the loop over the epochs,
    [training] and [train_net], and nothing catches it: the process ends
    with it.  So for a whole run: when no interrupt is pending, both
    datasets get built, the batch size is positive, at least one epoch is
    asked for, and the training loader's batches are some on which the step
    goes through followed by one with another channel count, then
    [train_net] raises [AssertionError] in the first epoch, the process ends
    with it uncaught, the forward passes made are those of the batches
    before the bad one, and no tracker entry was sent and no file saved.  In
    every run of [train_net], each forward pass made was on images with the
    network's channel count. *)
Theorem channel_mismatch_aborts net a :
  (forall pre b post acc s acc1 s1 c,
     train_batches net a pre acc s = (Ok acc1, s1) ->
     sigint s1 = None ->
     shape_at (image b) 1 = Ok c -> c <> n_channels net ->
     train_batches net a (pre ++ b :: post) acc s = (Raise AssertionError, s1)) /\
  (forall n_train tl epoch g s s1,
     sigint s = None ->
     train_batches net a (batches tl) (float_of_Q 0)
       (add_events [EvPbarOpen n_train (epoch + 1)] (set_net_training true s))
       = (Raise AssertionError, s1) ->
     run_epoch net a n_train tl epoch g s = (Raise AssertionError, s1)) /\
  (forall n_train tl done epoch rest g s g1 s1 s2,
     for_each done (run_epoch net a n_train tl) g s = (Ok g1, s1) ->
     run_epoch net a n_train tl epoch g1 s1 = (Raise AssertionError, s2) ->
     for_each (done ++ epoch :: rest) (run_epoch net a n_train tl) g s
       = (Raise AssertionError, s2)) /\
  (forall s d1 s1 d2 s2 s',
     sigint s = None -> 0 < batch_size a ->
     make_dataset dir_img_training dir_mask_training (img_scale a) s = (Ok d1, s1) ->
     make_dataset dir_img_testing dir_mask_testing (img_scale a) s1 = (Ok d2, s2) ->
     for_each (range (epochs a)) (run_epoch net a (length d1) (loaders_of a d1 d2).1.2) 0
       (epochs_start a d1 d2 s2) = (Raise AssertionError, s') ->
     train_net net a s = (Raise AssertionError, s')) /\
  (forall s s',
     stmt (train_net net a) s = (Raise AssertionError, s') ->
     run_process (guarded_train net a) s = (Uncaught AssertionError, s')) /\
  (forall s d1 s1 d2 s2 pre b post c,
     sigint s = None ->
     make_dataset dir_img_training dir_mask_training (img_scale a) s = (Ok d1, s1) ->
     make_dataset dir_img_testing dir_mask_testing (img_scale a) s1 = (Ok d2, s2) ->
     0 < batch_size a -> 1 <= epochs a ->
     batches (loaders_of a d1 d2).1.2 = pre ++ b :: post ->
     Forall (batch_ok net a) pre ->
     shape_at (image b) 1 = Ok c -> c <> n_channels net ->
     exists s',
       train_net net a s = (Raise AssertionError, s') /\
       run_process (guarded_train net a) s = (Uncaught AssertionError, s') /\
       files s' = files s /\ dirs s' = dirs s /\
       exists d, trace s' = trace s ++ d /\
                 forward_images d = device_images pre /\
                 wandb_logs d = [] /\ save_names d = []) /\
  (forall s, exists d,
     trace (train_net net a s).2 = trace s ++ d /\ Forall (forward_ok net) d).
Proof.
  assert (Chain : forall s d1 s1 d2 s2 s',
     sigint s = None -> 0 < batch_size a ->
     make_dataset dir_img_training dir_mask_training (img_scale a) s = (Ok d1, s1) ->
     make_dataset dir_img_testing dir_mask_testing (img_scale a) s1 = (Ok d2, s2) ->
     for_each (range (epochs a)) (run_epoch net a (length d1) (loaders_of a d1 d2).1.2) 0
       (epochs_start a d1 d2 s2) = (Raise AssertionError, s') ->
     train_net net a s = (Raise AssertionError, s')).
  { intros s d1 s1 d2 s2 s' Hs HB H1 H2 Hloop.
    destruct (make_dataset_quiet _ _ _ _ _ _ Hs H1) as (Hs1 & _ & _).
    destruct (make_dataset_quiet _ _ _ _ _ _ Hs1 H2) as (Hs2 & _ & _).
    unfold train_net. erewrite bind_Ok by exact H1. erewrite bind_Ok by exact H2.
    rewrite (training_run net a d1 d2 s2 Hs2 HB). apply bind_Raise. exact Hloop. }
  split; [|split; [|split; [|split; [|split; [|split]]]]].
  - intros pre b post acc s acc1 s1 c Hpre Hs E Hne. unfold train_batches.
    apply (for_each_raise pre post b _ acc s acc1 s1); [exact Hpre|].
    apply (batch_step_mismatch net a b acc1 s1 c Hs E Hne).
  - intros. apply run_epoch_raise; assumption.
  - intros n_train tl done epoch rest g s g1 s1 s2 Hdone He.
    apply (for_each_raise done rest epoch _ g s g1 s1); assumption.
  - exact Chain.
  - intros s s' H. apply guarded_train_uncaught; [exact H | discriminate | discriminate].
  - intros s d1 s1 d2 s2 pre b post c Hs H1 H2 HB He Hbs Hok E Hne.
    pose proof (preserves_run _ _ _ _ _ (make_dataset_plain _ _ _) H1) as (e1 & T1 & P1).
    pose proof (preserves_run _ _ _ _ _ (make_dataset_plain _ _ _) H2) as (e2 & T2 & P2).
    destruct (make_dataset_quiet _ _ _ _ _ _ Hs H1) as (Hs1 & [F1 D1] & _).
    destruct (make_dataset_quiet _ _ _ _ _ _ Hs1 H2) as (Hs2 & [F2 D2] & _).
    destruct (range_pos _ He) as [rest Hrange].
    destruct (train_batches_mismatch net a pre b post c (float_of_Q 0)
                (add_events [EvPbarOpen (length d1) (0 + 1)]
                   (set_net_training true (epochs_start a d1 d2 s2))))
      as (s' & Hrun & [F D] & d & T & Hf & Hw & Hsv);
      [repeat split; [exact Hs2 | eexists; reflexivity | eexists; reflexivity]
      | exact Hok | exact E | exact Hne |].
    rewrite <- Hbs in Hrun.
    assert (HT : train_net net a s = (Raise AssertionError, s')).
    { apply (Chain s d1 s1 d2 s2 s' Hs HB H1 H2).
      rewrite Hrange. simpl. apply bind_Raise.
      apply run_epoch_raise; [exact Hs2 | exact Hrun]. }
    exists s'. split; [exact HT|]. split.
    + apply guarded_train_uncaught; [|discriminate|discriminate].
      rewrite stmt_quiet by exact Hs. exact HT.
    + simpl in F, D, T. split; [congruence|]. split; [congruence|].
      destruct (plain_none _ P1) as (A1 & B1 & C1).
      destruct (plain_none _ P2) as (A2 & B2 & C2).
      eexists. rewrite T, T2, T1, <- !app_assoc. split; [reflexivity|].
      rewrite !forward_images_app, !wandb_logs_app, !save_names_app.
      rewrite A1, B1, C1, A2, B2, C2, Hf, Hw, Hsv. repeat split; reflexivity.
  - intros s. apply (train_net_forward_checked net a s).
Qed.

End ChannelCheckRun.

(** A whole run on the small framework over a training set whose second
    sample is a one-channel image, in batches of one: the permutation puts
    the bad batch second, after one batch that goes through. *)
Lemma channel_mismatch_aborts_witness :
  let a := train_args (@Build_Args Toy.framework_gray 2 1 (1 # 100000)%Q None 1%Q 10%Q false) in
  let s := @Build_state Toy.framework_gray 0 None false None None None ∅ ∅ [] None 0 [] in
  let pre : list (@Item Toy.framework_gray) := [Toy.stack [Toy.sample 3 3]] in
  let b : @Item Toy.framework_gray := Toy.stack [Toy.sample 1 2] in
  let post : list (@Item Toy.framework_gray) := [Toy.stack [Toy.sample 3 1]] in
  sigint s = None /\ 0 < batch_size a /\ 1 <= epochs a /\
  shape_at (FW := Toy.framework_gray) (image b) 1 = Ok 1 /\ 1 <> n_channels unet /\
  exists s',
    train_net unet a s = (Raise AssertionError, s') /\
    run_process (guarded_train unet a) s = (Uncaught AssertionError, s') /\
    files s' = files s /\ dirs s' = dirs s /\
    exists d, trace s' = trace s ++ d /\
              forward_images d = device_images pre /\
              wandb_logs d = [] /\ save_names d = [].
Proof.
  intros a s pre b post.
  assert (HB : 0 < batch_size a) by (vm_compute; reflexivity).
  assert (He : 1 <= epochs a) by (vm_compute; discriminate).
  assert (H3 : shape_at (FW := Toy.framework_gray) (image b) 1 = Ok 1) by reflexivity.
  assert (H4 : 1 <> n_channels unet) by (simpl; lia).
  split; [reflexivity|]. split; [exact HB|]. split; [exact He|].
  split; [exact H3|]. split; [exact H4|].
  destruct (channel_mismatch_aborts (FW := Toy.framework_gray) unet a)
    as (_ & _ & _ & _ & _ & W & _).
  apply (W s [Toy.sample 3 1; Toy.sample 1 2; Toy.sample 3 3]
           (make_dataset dir_img_training dir_mask_training (img_scale a) s).2
           Toy.testing_samples
           (make_dataset dir_img_testing dir_mask_testing (img_scale a)
              (make_dataset dir_img_training dir_mask_training (img_scale a) s).2).2
           pre b post 1).
  - reflexivity.
  - apply run_result. vm_compute. reflexivity.
  - apply run_result. vm_compute. reflexivity.
  - exact HB.
  - exact He.
  - vm_compute. reflexivity.
  - vm_compute. repeat constructor; intros p; eexists _, _; split; reflexivity.
  - exact H3.
  - exact H4.
Defined.

(** ** The number of batches (lines 58-60, 92, 119) *)

Section BatchCount.
Context `{FW : Framework}.

Lemma chunks_length {A} (k : nat) (drop_last : bool) : forall fuel (l : list A),
  (0 < k)%nat -> (length l <= fuel)%nat ->
  Z.of_nat (length (chunks fuel k drop_last l)) =
  if drop_last then Z.of_nat (length l) / Z.of_nat k
  else (Z.of_nat (length l) + Z.of_nat k - 1) / Z.of_nat k.
Proof.
  induction fuel as [|fuel IH]; intros l Hk Hl.
  - destruct l; [|simpl in Hl; lia]. simpl.
    destruct drop_last; symmetry; apply Z.div_small; lia.
  - simpl. destruct l as [|x l'] eqn:El.
    + simpl. destruct drop_last; symmetry; apply Z.div_small; lia.
    + rewrite <- El in *. assert (Hpos : (0 < length l)%nat) by (subst l; simpl; lia).
      clear El. case_decide as Hlt.
      * destruct drop_last; simpl.
        -- symmetry. apply Z.div_small. lia.
        -- apply Z.div_unique_pos with (r := Z.of_nat (length l) - 1); lia.
      * simpl length. rewrite Nat2Z.inj_succ, IH by (try rewrite length_drop; lia).
        rewrite length_drop. destruct drop_last.
        -- replace (Z.of_nat (length l)) with (Z.of_nat (length l - k) + 1 * Z.of_nat k) by lia.
           rewrite Z.div_add by lia. lia.
        -- replace (Z.of_nat (length l) + Z.of_nat k - 1)
             with (Z.of_nat (length l - k) + Z.of_nat k - 1 + 1 * Z.of_nat k) by lia.
           rewrite Z.div_add by lia. lia.
Qed.

Lemma subset_items_all (ds : Dataset) g :
  length (subset_items {| sub_dataset := ds; sub_indices := randperm (length ds) g |})
  = length ds.
Proof. apply Permutation_length, subset_items_perm, randperm_perm. Qed.

(** X4.  For a positive batch size [B], the training loader yields
    [ceil(n_train / B)] batches, the short last one included, and the loader
    over the testing set, which drops a short last batch, [n_val // B].  The
    divisor of the logged loss, [n_train // B], is the number of batches
    summed over exactly when [B] divides [n_train]; otherwise it is one
    less. *)
Theorem loader_batch_counts a d1 d2 :
  0 < batch_size a ->
  let n := Z.of_nat (length d1) in
  let B := batch_size a in
  let train_batches_n := Z.of_nat (length (batches (loaders_of a d1 d2).1.2)) in
  train_batches_n = (n + B - 1) / B /\
  Z.of_nat (length (batches (loaders_of a d1 d2).2)) = Z.of_nat (length d2) / B /\
  (n `mod` B = 0 -> train_batches_n = n / B) /\
  (n `mod` B <> 0 -> train_batches_n = n / B + 1).
Proof.
  intros HB n B tbn. subst tbn.
  assert (E1 : Z.of_nat (length (batches (loaders_of a d1 d2).1.2)) = (n + B - 1) / B).
  { unfold batches, loaders_of. simpl. rewrite length_map.
    rewrite chunks_length; [| lia | apply Nat.le_refl]. rewrite subset_items_all. rewrite Z2Nat.id by lia.
    reflexivity. }
  split; [exact E1|]. split.
  - unfold batches, loaders_of. simpl. rewrite length_map.
    rewrite chunks_length; [| lia | apply Nat.le_refl]. rewrite subset_items_all. rewrite Z2Nat.id by lia.
    reflexivity.
  - rewrite E1. pose proof (Z.div_mod n B ltac:(lia)) as Hdm.
    pose proof (Z.mod_pos_bound n B HB) as Hb. split; intros Hm.
    + symmetry. apply Z.div_unique_pos with (r := B - 1); [lia|]. rewrite Hm in Hdm. lia.
    + symmetry. apply Z.div_unique_pos with (r := n `mod` B - 1); lia.
Qed.

End BatchCount.

(** Five samples in batches of two: three batches, divisor two. *)
Lemma loader_batch_counts_witness :
  let a := train_args (Toy.args 2 2) in
  0 < batch_size a /\
  Z.of_nat (length (batches (loaders_of a Toy.training_samples Toy.testing_samples).1.2)) = 3 /\
  Z.of_nat (length Toy.training_samples) / batch_size a = 2 /\
  Z.of_nat (length (batches (loaders_of a Toy.training_samples Toy.testing_samples).1.2))
    = Z.of_nat (length Toy.training_samples) / batch_size a + 1.
Proof.
  intros a.
  assert (HB : 0 < batch_size a) by reflexivity.
  split; [exact HB|]. split; [vm_compute; reflexivity|]. split; [reflexivity|].
  destruct (loader_batch_counts a Toy.training_samples Toy.testing_samples HB)
    as (_ & _ & _ & W).
  apply W. vm_compute. discriminate.
Defined.

(** ** No epochs (line 88) *)

Section NoEpochs.
Context `{FW : Framework}.

Global Instance same_params_frame : Frame same_params.
Proof.
  split; [split|].
  - intros s. reflexivity.
  - intros s1 s2 s3 E1 E2. unfold same_params in *. congruence.
  - intros k s. reflexivity.
Qed.

Lemma range_nonpos n : n <= 0 -> range n = [].
Proof. intros H. unfold range. replace (Z.to_nat n) with O by lia. reflexivity. Qed.

Lemma train_net_no_epochs_plain net a :
  epochs a <= 0 -> preserves (extends is_plain) (train_net net a).
Proof.
  intros H. unfold train_net, training. rewrite (range_nonpos _ H). cbn [for_each].
  pres ltac:(extends_leaf; exact I).
Qed.

Lemma train_net_no_epochs_same_fs net a :
  epochs a <= 0 -> preserves same_fs (train_net net a).
Proof.
  intros H. unfold train_net, training. rewrite (range_nonpos _ H). cbn [for_each].
  pres same_fs_leaf.
Qed.

Lemma train_net_no_epochs_same_params net a :
  epochs a <= 0 -> preserves same_params (train_net net a).
Proof.
  intros H. unfold train_net, training. rewrite (range_nonpos _ H). cbn [for_each].
  pres ltac:(intros ?; reflexivity).
Qed.

Lemma training_no_epochs_run net a d1 d2 s :
  epochs a <= 0 -> sigint s = None -> 0 < batch_size a ->
  exists s', training net a d1 d2 s = (Ok tt, s') /\
             optimizer_ready (learning_rate a) s'.
Proof.
  intros He Hs HB. eexists. split.
  - unfold training.
    erewrite bind_Ok;
      [| rewrite make_loaders_run by exact Hs; rewrite decide_False by lia; reflexivity].
    unfold loaders_of at 1. cbv beta iota.
    run_stmt_with ltac:(reflexivity).
    run_stmt_with ltac:(reflexivity).
    run_stmt_with ltac:(reflexivity).
    erewrite bind_Ok; [| apply setup_optimizer_run; simpl; exact Hs].
    rewrite (range_nonpos _ He). reflexivity.
  - simpl. split; [eexists; split; reflexivity | reflexivity].
Qed.

(** X5.  With [epochs <= 0] the loop body never runs.  However such a run of
    [train_net] ends, it made no forward pass, sent no tracker entry, wrote
    no file or directory and left the network's parameters as they were.
    When no interrupt is pending, both datasets get built and the batch size
    is positive, it builds the loaders, the tracker session and the
    optimizer and returns, and the process completes. *)
Theorem no_epochs_no_training net a :
  epochs a <= 0 ->
  (forall s, exists d,
     trace (train_net net a s).2 = trace s ++ d /\
     forward_images d = [] /\ wandb_logs d = [] /\ save_names d = []) /\
  (forall s, files (train_net net a s).2 = files s /\
             dirs (train_net net a s).2 = dirs s /\
             net_params (train_net net a s).2 = net_params s) /\
  (forall s d1 s1 d2 s2,
     sigint s = None -> 0 < batch_size a ->
     make_dataset dir_img_training dir_mask_training (img_scale a) s = (Ok d1, s1) ->
     make_dataset dir_img_testing dir_mask_testing (img_scale a) s1 = (Ok d2, s2) ->
     exists s', train_net net a s = (Ok tt, s') /\
                run_process (guarded_train net a) s = (Completed, s') /\
                optimizer_ready (learning_rate a) s').
Proof.
  intros He. split; [|split].
  - intros s. destruct (train_net_no_epochs_plain net a He s) as (d & T & P).
    exists d. split; [exact T|]. apply plain_none. exact P.
  - intros s. destruct (train_net_no_epochs_same_fs net a He s) as [F D].
    split; [exact F|]. split; [exact D|]. apply (train_net_no_epochs_same_params net a He s).
  - intros s d1 s1 d2 s2 Hs HB H1 H2.
    destruct (make_dataset_quiet _ _ _ _ _ _ Hs H1) as (Hs1 & _).
    destruct (make_dataset_quiet _ _ _ _ _ _ Hs1 H2) as (Hs2 & _).
    destruct (training_no_epochs_run net a d1 d2 s2 He Hs2 HB) as (s' & Hrun & Hready).
    assert (HT : train_net net a s = (Ok tt, s')).
    { unfold train_net. erewrite bind_Ok by exact H1. erewrite bind_Ok by exact H2. exact Hrun. }
    exists s'. split; [exact HT|]. split; [|exact Hready].
    unfold run_process, guarded_train, try_except. rewrite stmt_quiet by exact Hs.
    rewrite HT. reflexivity.
Qed.

End NoEpochs.

(** Zero epochs on the small framework. *)
Lemma no_epochs_no_training_witness :
  let a := train_args (Toy.args 0 2) in
  let s := Toy.start None in
  epochs a <= 0 /\ sigint s = None /\ 0 < batch_size a /\
  (train_net unet a s).1 = Ok tt /\
  exists s', train_net unet a s = (Ok tt, s') /\
             run_process (guarded_train unet a) s = (Completed, s') /\
             optimizer_ready (learning_rate a) s'.
Proof.
  intros a s.
  assert (He : epochs a <= 0) by (vm_compute; discriminate).
  assert (HB : 0 < batch_size a) by reflexivity.
  split; [exact He|]. split; [reflexivity|]. split; [exact HB|].
  split; [vm_compute; reflexivity|].
  destruct (no_epochs_no_training unet a He) as (_ & _ & W).
  apply (W s Toy.training_samples
           (make_dataset dir_img_training dir_mask_training (img_scale a) s).2
           Toy.testing_samples
           (make_dataset dir_img_testing dir_mask_testing (img_scale a)
              (make_dataset dir_img_training dir_mask_training (img_scale a) s).2).2).
  - reflexivity.
  - exact HB.
  - apply run_result. vm_compute. reflexivity.
  - apply run_result. vm_compute. reflexivity.
Defined.

(** ** Start-up and the interrupt (lines 170-202) *)

Section StartUp.
Context `{FW : Framework}.

Lemma stmt_sigint {A} (m : M A) s :
  sigint s = Some O -> stmt m s = (Raise KeyboardInterrupt, set_sigint None s).
Proof. intros H. unfold stmt, tick, mbind, M_bind. rewrite H. reflexivity. Qed.

Lemma stmt_countdown {A} (m : M A) s k :
  sigint s = Some (S k) -> stmt m s = m (set_sigint (Some k) s).
Proof. intros H. unfold stmt, tick, mbind, M_bind. rewrite H. reflexivity. Qed.

Lemma run_stmt_sigint {A B} (m : M A) (f : A -> M B) s :
  sigint s = Some O -> (stmt m ≫= f) s = (Raise KeyboardInterrupt, set_sigint None s).
Proof. intros H. apply bind_Raise. apply stmt_sigint. exact H. Qed.

Lemma run_stmt_countdown {A B} (m : M A) (f : A -> M B) s k a s1 :
  sigint s = Some (S k) -> m (set_sigint (Some k) s) = (Ok a, s1) ->
  (stmt m ≫= f) s = f a s1.
Proof. intros H Hm. apply bind_Ok. rewrite (stmt_countdown _ _ _ H). exact Hm. Qed.

(** The statements of [__main__] before the [try] block, without [--load]. *)
Lemma main_interrupted_early args s k :
  args_load args = None -> sigint s = Some k -> (k < 7)%nat ->
  exists s', main args s = (Raise KeyboardInterrupt, s') /\
             files s' = files s /\ dirs s' = dirs s /\
             exists d, trace s' = trace s ++ d /\ Forall is_plain d.
Proof.
  intros Hload Hs Hk. unfold main, load_weights. rewrite Hload.
  do 7 (destruct k as [|k];
        [ eexists; split;
          [ repeat (etransitivity;
                    [ eapply run_stmt_countdown; [simpl; first [exact Hs | reflexivity]
                                                 | reflexivity]
                    | cbv beta ]);
            eapply run_stmt_sigint; simpl; first [exact Hs | reflexivity]
          | simpl; split; [reflexivity|]; split; [reflexivity|];
            eexists; split;
            [ first [ symmetry; apply app_nil_r
                    | rewrite <- ?app_assoc; reflexivity ]
            | repeat constructor ] ]
        | ]).
  lia.
Qed.

(** X6.  The emergency save covers the [try] block only.  An interrupt that
    arrives during one of the seven statements before it (logging set-up,
    device choice, construction of the network, transfer to the device; no
    [--load]) ends the process with the uncaught [KeyboardInterrupt]: nothing
    is saved, no file or directory changes.  An interrupt that arrives at the
    call of [train_net] itself is handled: the fresh parameters are saved
    under [INTERRUPTED.pth] and the process exits with status 0. *)
Theorem interrupt_before_try_is_not_handled args s k :
  args_load args = None -> sigint s = Some k ->
  ((k < 7)%nat ->
     exists s', run_process (main args) s = (Uncaught KeyboardInterrupt, s') /\
                files s' = files s /\ dirs s' = dirs s /\
                exists d, trace s' = trace s ++ d /\ save_names d = []) /\
  (k = 7%nat ->
     exists s', run_process (main args) s = (Exited 0, s') /\
                files s' = <[interrupted_file := unet_init 3 2]> (files s)).
Proof.
  intros Hload Hs. split.
  - intros Hk. destruct (main_interrupted_early args s k Hload Hs Hk)
      as (s' & Hm & F & D & d & T & P).
    exists s'. split; [unfold run_process; rewrite Hm; reflexivity|].
    split; [exact F|]. split; [exact D|]. exists d. split; [exact T|].
    apply plain_none. exact P.
  - intros ->. eexists. split.
    + unfold run_process, main, load_weights. rewrite Hload.
      repeat (etransitivity;
              [ apply (f_equal (fun x => match x with
                                   | (Ok _, s') => (Completed, s')
                                   | (Raise (SystemExit c), s') => (Exited c, s')
                                   | (Raise e, s') => (Uncaught e, s')
                                   end));
                eapply run_stmt_countdown; [simpl; first [exact Hs | reflexivity] | reflexivity]
              | cbv beta ]).
      unfold guarded_train, try_except. rewrite stmt_sigint by reflexivity.
      simpl except_interrupt. cbv iota. rewrite interrupt_handler_run by reflexivity.
      reflexivity.
    + reflexivity.
Qed.

End StartUp.

(** An interrupt three statements into the start-up of a process on the small
    framework. *)
Lemma interrupt_before_try_is_not_handled_witness :
  let s := Toy.start (Some 3%nat) in
  args_load (Toy.args 2 2) = None /\ sigint s = Some 3%nat /\ (3 < 7)%nat /\
  (run_process (main (Toy.args 2 2)) s).1 = Uncaught KeyboardInterrupt /\
  exists s', run_process (main (Toy.args 2 2)) s = (Uncaught KeyboardInterrupt, s') /\
             files s' = files s /\ dirs s' = dirs s /\
             exists d, trace s' = trace s ++ d /\ save_names d = [].
Proof.
  intros s.
  assert (Hk : (3 < 7)%nat) by lia.
  split; [reflexivity|]. split; [reflexivity|]. split; [exact Hk|].
  split; [vm_compute; reflexivity|].
  exact (proj1 (interrupt_before_try_is_not_handled (Toy.args 2 2) s 3%nat eq_refl eq_refl) Hk).
Defined.

(** ** Loading weights (lines 185-187) *)

Section LoadWeights.
Context `{FW : Framework}.

Lemma main_without_load args s :
  (args_load args = None \/ args_load args = Some "") -> sigint s = None ->
  main args s =
  guarded_train unet (train_args args)
    (add_events [EvLogging (MsgUsingDevice cuda_is_available);
                 EvLogging (MsgNetwork 3 2)]
       (set_net_params (unet_init 3 2) s)).
Proof.
  intros Hload Hs. unfold main, load_weights.
  run_stmt_with ltac:(reflexivity).
  run_stmt_with ltac:(reflexivity).
  run_stmt_with ltac:(reflexivity).
  run_stmt_with ltac:(reflexivity).
  run_stmt_with ltac:(reflexivity).
  run_stmt_with ltac:(reflexivity).
  destruct Hload as [-> | ->].
  - unfold mbind at 1, M_bind at 1, mret at 1, M_ret at 1.
    run_stmt_with ltac:(reflexivity).
    unfold add_events. simpl. rewrite <- app_assoc. reflexivity.
  - rewrite decide_True by reflexivity.
    unfold mbind at 1, M_bind at 1, mret at 1, M_ret at 1.
    run_stmt_with ltac:(reflexivity).
    unfold add_events. simpl. rewrite <- app_assoc. reflexivity.
Qed.

Lemma main_with_load args file s :
  args_load args = Some file -> file <> "" -> sigint s = None ->
  main args s =
  match files s !! file with
  | Some p =>
      guarded_train unet (train_args args)
        (add_events [EvLogging (MsgUsingDevice cuda_is_available);
                     EvLogging (MsgNetwork 3 2);
                     EvLogging (MsgModelLoaded file)]
           (set_net_params p s))
  | None =>
      (Raise FileNotFoundError,
       add_events [EvLogging (MsgUsingDevice cuda_is_available);
                   EvLogging (MsgNetwork 3 2)]
         (set_net_params (unet_init 3 2) s))
  end.
Proof.
  intros Hload Hne Hs. unfold main, load_weights.
  run_stmt_with ltac:(reflexivity).
  run_stmt_with ltac:(reflexivity).
  run_stmt_with ltac:(reflexivity).
  run_stmt_with ltac:(reflexivity).
  run_stmt_with ltac:(reflexivity).
  run_stmt_with ltac:(reflexivity).
  rewrite Hload. rewrite decide_False by exact Hne.
  destruct (files s !! file) as [p|] eqn:E.
  - erewrite bind_Ok.
    2:{ run_stmt_with ltac:(unfold gets, mbind, M_bind; simpl; rewrite E; reflexivity).
        rewrite stmt_quiet by (simpl; exact Hs). reflexivity. }
    run_stmt_with ltac:(reflexivity).
    unfold add_events. simpl. rewrite <- !app_assoc. reflexivity.
  - erewrite bind_Raise.
    2:{ apply run_stmt_raise; [simpl; exact Hs|].
        unfold gets, mbind, M_bind. simpl. rewrite E. reflexivity. }
    unfold add_events. simpl. rewrite <- !app_assoc. reflexivity.
Qed.

(** X7.  With [--load file], for a non-empty name and no interrupt pending:
    if the file exists, training starts from the parameters stored in it,
    which replace the freshly constructed ones; if it does not, the process
    ends with the uncaught [FileNotFoundError] before any dataset is built.
    Without [--load], or with the empty name, training starts from the
    freshly constructed parameters.  In particular what the interrupt
    handler saved can be loaded back: a later process given
    [--load INTERRUPTED.pth] starts from the parameters the interrupted one
    had. *)
Theorem load_restores_saved_parameters args :
  (forall file p s,
     args_load args = Some file -> file <> "" -> sigint s = None ->
     files s !! file = Some p ->
     exists s1, main args s = guarded_train unet (train_args args) s1 /\
                net_params s1 = p /\ files s1 = files s /\ sigint s1 = None) /\
  (forall file s,
     args_load args = Some file -> file <> "" -> sigint s = None ->
     files s !! file = None ->
     exists s1 d, run_process (main args) s = (Uncaught FileNotFoundError, s1) /\
                  trace s1 = trace s ++ d /\ Forall (fun e => ~ is_dataset_event e) d /\
                  files s1 = files s) /\
  (forall s,
     (args_load args = None \/ args_load args = Some "") -> sigint s = None ->
     exists s1, main args s = guarded_train unet (train_args args) s1 /\
                net_params s1 = unet_init 3 2 /\ files s1 = files s /\ sigint s1 = None) /\
  (forall s0 s,
     args_load args = Some interrupted_file ->
     sigint s0 = None -> sigint s = None ->
     files s = files (interrupt_handler s0).2 ->
     exists s1, main args s = guarded_train unet (train_args args) s1 /\
                net_params s1 = net_params s0).
Proof.
  split; [|split; [|split]].
  - intros file p s Hload Hne Hs E. eexists. split.
    + rewrite (main_with_load _ _ _ Hload Hne Hs), E. reflexivity.
    + simpl. repeat split; try reflexivity; exact Hs.
  - intros file s Hload Hne Hs E. eexists. eexists. split.
    + unfold run_process. rewrite (main_with_load _ _ _ Hload Hne Hs), E. reflexivity.
    + simpl. split; [reflexivity|]. split; [|reflexivity].
      repeat constructor; simpl; tauto.
  - intros s Hload Hs. eexists. split.
    + apply (main_without_load _ _ Hload Hs).
    + simpl. repeat split; try reflexivity; exact Hs.
  - intros s0 s Hload Hs0 Hs Hf.
    assert (E : files s !! interrupted_file = Some (net_params s0)).
    { rewrite Hf, (interrupt_handler_run _ Hs0). simpl. apply lookup_insert_eq. }
    eexists. split.
    + rewrite (main_with_load _ _ _ Hload ltac:(discriminate) Hs), E. reflexivity.
    + reflexivity.
Qed.

End LoadWeights.

(** A process on the small framework started with [--load w.pth], where the
    file holds the parameters 7; and a process started with
    [--load INTERRUPTED.pth] on the files an interrupted one left. *)
Lemma load_restores_saved_parameters_witness :
  let args := @Build_Args Toy.framework 1 2 (1 # 100000)%Q (Some "w.pth") 1%Q 10%Q false in
  let s := @Build_state Toy.framework 0 None false None None None {[ "w.pth" := 7 ]} ∅ [] None 0 [] in
  let args' := @Build_Args Toy.framework 1 2 (1 # 100000)%Q (Some interrupted_file)
                 1%Q 10%Q false in
  let s0 := (stmt (train_net unet (train_args (Toy.args 2 2))) (Toy.start (Some 45%nat))).2 in
  let s' := @Build_state Toy.framework 0 None false None None None
              (files (interrupt_handler s0).2) ∅ [] None 0 [] in
  (args_load args = Some "w.pth" /\ "w.pth" <> "" /\ sigint s = None /\
   files s !! "w.pth" = Some 7) /\
  (exists s1, main args s = guarded_train unet (train_args args) s1 /\
              net_params s1 = 7 /\ files s1 = files s /\ sigint s1 = None) /\
  (sigint s0 = None /\ net_params s0 = 2) /\
  (exists s1, main args' s' = guarded_train unet (train_args args') s1 /\
              net_params s1 = net_params s0).
Proof.
  intros args s args' s0 s'.
  assert (Hne : "w.pth" <> "") by discriminate.
  assert (Hf : files s !! "w.pth" = Some 7) by (vm_compute; reflexivity).
  assert (Hs0 : sigint s0 = None) by (vm_compute; reflexivity).
  destruct (load_restores_saved_parameters args) as (W1 & _).
  destruct (load_restores_saved_parameters args') as (_ & _ & _ & W4).
  split; [split; [reflexivity | split; [exact Hne | split; [reflexivity | exact Hf]]]|].
  split; [exact (W1 "w.pth" 7 s eq_refl Hne eq_refl Hf)|].
  split; [split; [exact Hs0 | vm_compute; reflexivity]|].
  exact (W4 s0 s' eq_refl Hs0 eq_refl eq_refl).
Defined.

(** ** Arguments the loop does not read (lines 36-38, 146) *)

Section UnusedArguments.
Context `{FW : Framework}.

(** X8.  The epoch loop reads only [batch_size] and [amp] from the arguments
    of [train_net]: with any other values for [save_checkpoint],
    [val_percent], [img_scale] and [learning_rate] it computes the same
    result and the same state.  In particular [save_checkpoint = False] does
    not switch the checkpoints off: a completed epoch with an even index has
    written its file all the same. *)
Theorem loop_ignores_save_checkpoint net a :
  (forall lr0 val save scale n_train tl es g s,
     for_each es (run_epoch net (with_unused a lr0 val save scale) n_train tl) g s =
     for_each es (run_epoch net a n_train tl) g s) /\
  (forall n_train tl epoch g s g' s',
     save_checkpoint a = false -> epoch `mod` 2 = 0 ->
     run_epoch net a n_train tl epoch g s = (Ok g', s') ->
     is_Some (files s' !! checkpoint_file epoch) /\
     In (checkpoint_file epoch) (save_names (drop (length (trace s)) (trace s')))).
Proof.
  split.
  - intros lr0 val save scale n_train tl es. induction es as [|e es IH]; intros g s.
    + reflexivity.
    + simpl. unfold mbind, M_bind.
      change (run_epoch net (with_unused a lr0 val save scale) n_train tl e g s)
        with (run_epoch net a n_train tl e g s).
      destruct (run_epoch net a n_train tl e g s) as [[g1|x] s1]; [apply IH | reflexivity].
  - intros n_train tl epoch g s g' s' _ He H.
    apply run_epoch_effects in H as (_ & [W _] & d & T & _ & _ & Hs).
    unfold checkpointed in *. rewrite bool_decide_true in * by exact He. split.
    + apply W. apply list_elem_of_singleton. reflexivity.
    + rewrite T, drop_app_length, Hs. left. reflexivity.
Qed.

End UnusedArguments.

(** An even epoch on the small framework with [save_checkpoint = False]. *)
Lemma loop_ignores_save_checkpoint_witness :
  let s := @Build_state Toy.framework 0 None false
             (Some (@Build_Optimizer Toy.framework (1 # 100000)%Q (1 # 100000000)%Q O))
             None (Some false) ∅ ∅ [] None 0 [] in
  let a := with_unused (train_args (Toy.args 2 2)) (1 # 100000)%Q (1 # 10)%Q false 1%Q in
  let tl := (loaders_of a Toy.training_samples Toy.testing_samples).1.2 in
  let r := run_epoch unet a 5 tl 0 0 s in
  save_checkpoint a = false /\ 0 `mod` 2 = 0 /\ r.1 = Ok 1 /\
  is_Some (files r.2 !! checkpoint_file 0) /\
  In (checkpoint_file 0) (save_names (drop (length (trace s)) (trace r.2))).
Proof.
  intros s a tl r.
  assert (H1 : r.1 = Ok 1) by (vm_compute; reflexivity).
  split; [reflexivity|]. split; [reflexivity|]. split; [exact H1|].
  exact (proj2 (loop_ignores_save_checkpoint unet a) 5%nat tl 0 0 s 1 r.2
               eq_refl eq_refl (run_result _ _ _ H1)).
Defined.

(** ** The interrupt file and the other ways to end (lines 190-202) *)

Section InterruptOnly.
Context `{FW : Framework}.

Lemma stmt_cases {A} (m : M A) s :
  (exists k, stmt m s = m (set_sigint k s)) \/
  stmt m s = (Raise KeyboardInterrupt, set_sigint None s).
Proof.
  unfold stmt, tick, mbind, M_bind. destruct (sigint s) as [[|k]|] eqn:E.
  - right. reflexivity.
  - left. exists (Some k). reflexivity.
  - left. exists None. destruct s; simpl in *; subst; reflexivity.
Qed.

Lemma bind_stmt_cases {A B} (m : M A) (f : A -> M B) s :
  (exists k, (stmt m ≫= f) s = (m ≫= f) (set_sigint k s)) \/
  (stmt m ≫= f) s = (Raise KeyboardInterrupt, set_sigint None s).
Proof.
  destruct (stmt_cases m s) as [[k E] | E].
  - left. exists k. unfold mbind, M_bind in *. rewrite E. reflexivity.
  - right. apply bind_Raise. exact E.
Qed.

(** The handler never returns and never raises anything but [SystemExit(0)]
    or, on a second signal, [KeyboardInterrupt]. *)
Lemma interrupt_handler_raises s :
  (interrupt_handler s).1 = Raise (SystemExit 0) \/
  (interrupt_handler s).1 = Raise KeyboardInterrupt.
Proof.
  unfold interrupt_handler.
  destruct (bind_stmt_cases (B := unit) (torch_save interrupted_file)
              (fun _ => stmt (emit (EvLogging MsgSavedInterrupt));;
                        stmt (raise (SystemExit 0))) s) as [[k1 E1] | E1];
    rewrite E1; [|right; reflexivity].
  erewrite bind_Ok by reflexivity.
  match goal with
  | |- context [(stmt (emit ?e) ≫= ?f) ?s1] =>
      destruct (bind_stmt_cases (emit e) f s1) as [[k2 E2] | E2];
        rewrite E2; [|right; reflexivity]
  end.
  erewrite bind_Ok by reflexivity.
  match goal with
  | |- context [stmt (raise ?e) ?s1] =>
      destruct (stmt_cases (@raise _ unit e) s1) as [[k3 E3] | E3];
        rewrite E3; [left | right]; reflexivity
  end.
Qed.

Lemma spares_bind {A} (m : M A) (f : A -> M unit) :
  preserves same_interrupted m -> (forall a, spares_interrupted (f a)) ->
  spares_interrupted (m ≫= f).
Proof.
  intros Hm Hf s. specialize (Hm s). unfold run_process, mbind, M_bind.
  destruct (m s) as [[a|e] s1] eqn:E; simpl in Hm.
  - intros H. specialize (Hf a s1 H). unfold same_interrupted in *.
    etransitivity; [exact Hf | exact Hm].
  - intros _. destruct e; exact Hm.
Qed.

Lemma guarded_train_spares net a : spares_interrupted (guarded_train net a).
Proof.
  intros s.
  pose proof (pres_stmt _ _ (train_net_same_interrupted net a) s) as R.
  unfold run_process, guarded_train, try_except.
  destruct (stmt (train_net net a) s) as [[u|e] s1]; simpl in R; [intros _; exact R|].
  destruct e; simpl except_interrupt; cbv iota; try (intros _; exact R).
  intros H. exfalso.
  destruct (interrupt_handler_raises s1) as [E | E];
    destruct (interrupt_handler s1) as [r s2]; simpl in E; subst r; simpl in H;
    destruct H as [H | (e & H & Hne)]; try discriminate H.
  inversion H; subst. contradiction.
Qed.

Lemma main_spares args : spares_interrupted (main args).
Proof.
  unfold main.
  repeat (apply spares_bind; [pres ltac:(intros ?; reflexivity) | intros _]).
  apply guarded_train_spares.
Qed.

(** X9.  [INTERRUPTED.pth] is written on the interrupt path only: when the
    process completes, or ends with an uncaught exception other than
    [KeyboardInterrupt], what is stored under that name is what was there
    when the process started. *)
Theorem interrupted_file_written_only_on_interrupt args s :
  ended_otherwise (run_process (main args) s).1 ->
  files (run_process (main args) s).2 !! interrupted_file = files s !! interrupted_file.
Proof. intros H. apply (main_spares args s H). Qed.

End InterruptOnly.

(** A process on the small framework that completes, started with something
    stored under the interrupt name. *)
Lemma interrupted_file_written_only_on_interrupt_witness :
  let s := @Build_state Toy.framework 0 None false None None None
             {[ interrupted_file := 9 ]} ∅ [] None 0 [] in
  (run_process (main (Toy.args 2 2)) s).1 = Completed /\
  files (run_process (main (Toy.args 2 2)) s).2 !! interrupted_file = Some 9.
Proof.
  intros s.
  assert (H1 : (run_process (main (Toy.args 2 2)) s).1 = Completed) by (vm_compute; reflexivity).
  split; [exact H1|].
  etransitivity;
    [exact (interrupted_file_written_only_on_interrupt (Toy.args 2 2) s (or_introl H1))|].
  vm_compute. reflexivity.
Defined.

(** ** The newest checkpoint and the final parameters (lines 88, 146-148) *)

Section NewestCheckpoint.
Context `{FW : Framework}.

Lemma range_snoc n : 1 <= n -> range n = range (n - 1) ++ [n - 1].
Proof.
  intros H. unfold range. replace (Z.to_nat n) with (S (Z.to_nat (n - 1))) by lia.
  rewrite seq_S, map_app. simpl. f_equal. f_equal. lia.
Qed.

Lemma for_each_snoc_inv {A B} (l : list A) (x : A) (body : A -> B -> M B) acc s acc' s' :
  for_each (l ++ [x]) body acc s = (Ok acc', s') ->
  exists acc1 s1, for_each l body acc s = (Ok acc1, s1) /\ body x acc1 s1 = (Ok acc', s').
Proof.
  rewrite for_each_app. intros H. apply bind_Ok_inv in H as (acc1 & s1 & H1 & H2).
  exists acc1, s1. split; [exact H1|]. simpl in H2.
  apply bind_Ok_inv in H2 as (acc2 & s2 & H2 & H3). inversion H3; subst. exact H2.
Qed.

Lemma run_epoch_saved net a n_train tl epoch g s g' s' :
  run_epoch net a n_train tl epoch g s = (Ok g', s') ->
  if decide (epoch `mod` 2 = 0)
  then files s' !! checkpoint_file epoch = Some (net_params s')
  else files s' = files s.
Proof.
  intros H.
  apply run_epoch_Ok_inv in H as (k1 & k2 & k3 & l & s1 & s2 & Hb & Hl & Hc).
  pose proof (preserves_run _ _ _ _ _ (train_batches_same_fs net a _ _) Hb) as [Fb _].
  pose proof (preserves_run _ _ _ _ _ (log_epoch_same_fs a _ _ _ _) Hl) as [Fl _].
  apply checkpoint_Ok_inv in Hc as [Hp Hc]. simpl in Fb.
  case_decide; destruct Hc as (Fc & _ & _).
  - rewrite Fc, Hp. apply lookup_insert_eq.
  - congruence.
Qed.

(** X10.  Take a pass over all [epochs >= 1] epochs that ran to its end.  If
    [epochs] is odd, the last epoch has an even index and the file named
    with [epochs] holds the final parameters.  If [epochs] is even, the last
    epoch writes no file: the newest checkpoint, named with [epochs - 1],
    holds the parameters as they were before the last epoch ran, so the
    updates of the last epoch are in no checkpoint. *)
Theorem newest_checkpoint_and_final_parameters net a n_train tl g s g' s' :
  1 <= epochs a ->
  for_each (range (epochs a)) (run_epoch net a n_train tl) g s = (Ok g', s') ->
  exists g1 s1,
    for_each (range (epochs a - 1)) (run_epoch net a n_train tl) g s = (Ok g1, s1) /\
    run_epoch net a n_train tl (epochs a - 1) g1 s1 = (Ok g', s') /\
    (epochs a `mod` 2 = 1 ->
       files s' !! checkpoint_file (epochs a - 1) = Some (net_params s')) /\
    (epochs a `mod` 2 = 0 ->
       files s' = files s1 /\
       (2 <= epochs a ->
          files s' !! checkpoint_file (epochs a - 2) = Some (net_params s1))).
Proof.
  intros He H. rewrite (range_snoc _ He) in H.
  apply for_each_snoc_inv in H as (g1 & s1 & H1 & H2).
  exists g1, s1. split; [exact H1|]. split; [exact H2|].
  pose proof (run_epoch_saved _ _ _ _ _ _ _ _ _ H2) as Hlast. split.
  - intros Hodd. rewrite decide_True in Hlast; [exact Hlast|].
    rewrite Zminus_mod, Hodd. reflexivity.
  - intros Heven. rewrite decide_False in Hlast.
    2:{ rewrite Zminus_mod, Heven. simpl. discriminate. }
    split; [exact Hlast|]. intros H2e. rewrite Hlast.
    rewrite (range_snoc (epochs a - 1)) in H1 by lia.
    apply for_each_snoc_inv in H1 as (g0 & s0 & _ & H0).
    replace (epochs a - 1 - 1) with (epochs a - 2) in H0 by lia.
    apply run_epoch_saved in H0. rewrite decide_True in H0; [exact H0|].
    rewrite Zminus_mod, Heven. reflexivity.
Qed.

End NewestCheckpoint.

(** Two epochs on the small framework: the newest checkpoint is the first
    epoch's and holds 3 optimizer steps, while the network has made 6. *)
Lemma newest_checkpoint_and_final_parameters_witness :
  let s := @Build_state Toy.framework 0 None false
             (Some (@Build_Optimizer Toy.framework (1 # 100000)%Q (1 # 100000000)%Q O))
             None (Some false) ∅ ∅ [] None 0 [] in
  let a := train_args (Toy.args 2 2) in
  let tl := (loaders_of a Toy.training_samples Toy.testing_samples).1.2 in
  let r := for_each (range (epochs a)) (run_epoch unet a 5 tl) 0 s in
  1 <= epochs a /\ r.1 = Ok 2 /\
  net_params r.2 = 6 /\ files r.2 !! checkpoint_file 0 = Some 3 /\
  exists g1 s1,
    for_each (range (epochs a - 1)) (run_epoch unet a 5 tl) 0 s = (Ok g1, s1) /\
    run_epoch unet a 5 tl (epochs a - 1) g1 s1 = (Ok 2, r.2) /\
    (epochs a `mod` 2 = 1 ->
       files r.2 !! checkpoint_file (epochs a - 1) = Some (net_params r.2)) /\
    (epochs a `mod` 2 = 0 ->
       files r.2 = files s1 /\
       (2 <= epochs a ->
          files r.2 !! checkpoint_file (epochs a - 2) = Some (net_params s1))).
Proof.
  intros s a tl r.
  assert (He : 1 <= epochs a) by (vm_compute; discriminate).
  assert (H1 : r.1 = Ok 2) by (vm_compute; reflexivity).
  split; [exact He|]. split; [exact H1|].
  split; [vm_compute; reflexivity|]. split; [vm_compute; reflexivity|].
  exact (newest_checkpoint_and_final_parameters unet a 5 tl 0 s 2 r.2 He (run_result _ _ _ H1)).
Defined.

(** ** Other failures in a batch (lines 96, 105, 107) *)

Section BatchFailures.
Context `{FW : Framework}.

(** X11.  With no interrupt pending: a batch whose image tensor has fewer
    than two dimensions makes the loop raise [IndexError] at the [assert],
    not [AssertionError], and leaves the state untouched.  When the forward
    pass or the loss raises on a batch with the right channel count, that
    exception leaves the loop; the forward pass was started but the
    gradients, the parameters and the optimizer are as before the batch. *)
Theorem batch_failures_leave_parameters net a b acc s :
  sigint s = None ->
  (shape (image b) !! 1%nat = None ->
     batch_step net a b acc s = (Raise IndexError, s)) /\
  (forall e,
     shape (image b) !! 1%nat = Some (n_channels net) ->
     net_forward (amp a) (net_params s) (to_float32 (image b)) = Raise e ->
     batch_step net a b acc s =
       (Raise e, add_events [EvForward (to_float32 (image b))] s)) /\
  (forall pred e,
     shape (image b) !! 1%nat = Some (n_channels net) ->
     net_forward (amp a) (net_params s) (to_float32 (image b)) = Ok pred ->
     bce_loss (amp a) pred (to_float32 (output b)) = Raise e ->
     batch_step net a b acc s =
       (Raise e, add_events [EvForward (to_float32 (image b))] s)).
Proof.
  intros Hs. split; [|split].
  - intros E. unfold batch_step. apply bind_Raise. unfold forward_backward.
    run_stmt_with ltac:(reflexivity).
    run_stmt_with ltac:(reflexivity).
    apply run_stmt_raise; [exact Hs|].
    unfold lift, mbind, M_bind, shape_at. rewrite E. reflexivity.
  - intros e E Hf. unfold batch_step. apply bind_Raise. unfold forward_backward.
    run_stmt_with ltac:(reflexivity).
    run_stmt_with ltac:(reflexivity).
    run_stmt_with ltac:(unfold lift, mbind, M_bind, shape_at; rewrite E;
                        rewrite decide_True by reflexivity; reflexivity).
    run_stmt_with ltac:(reflexivity).
    run_stmt_with ltac:(reflexivity).
    apply run_stmt_raise; [exact Hs|].
    unfold emit, gets, lift, mbind, M_bind. simpl. rewrite Hf. reflexivity.
  - intros pred e E Hf Hl. unfold batch_step. apply bind_Raise. unfold forward_backward.
    run_stmt_with ltac:(reflexivity).
    run_stmt_with ltac:(reflexivity).
    run_stmt_with ltac:(unfold lift, mbind, M_bind, shape_at; rewrite E;
                        rewrite decide_True by reflexivity; reflexivity).
    run_stmt_with ltac:(reflexivity).
    run_stmt_with ltac:(reflexivity).
    run_stmt_with ltac:(unfold emit, gets, lift, mbind, M_bind; simpl;
                        rewrite Hf; reflexivity).
    apply run_stmt_raise; [simpl; exact Hs|].
    unfold lift. rewrite Hl. reflexivity.
Qed.

End BatchFailures.

(** A batch of scalars on the small framework. *)
Lemma batch_failures_leave_parameters_witness :
  let s := @Build_state Toy.framework 0 None false
             (Some (@Build_Optimizer Toy.framework (1 # 100000)%Q (1 # 100000000)%Q O))
             None (Some false) ∅ ∅ [] None 0 [] in
  let b : @Item Toy.framework := (([4], 1%Q), ([4], 1%Q)) in
  sigint s = None /\ shape (image b) !! 1%nat = None /\
  batch_step unet (train_args (Toy.args 2 2)) b 0%Q s = (Raise IndexError, s).
Proof.
  intros s b.
  assert (E : shape (image b) !! 1%nat = None) by reflexivity.
  split; [reflexivity|]. split; [exact E|].
  exact (proj1 (batch_failures_leave_parameters unet (train_args (Toy.args 2 2)) b 0%Q s eq_refl) E).
Defined.
